(** * beads: orphan detection, schema migrations and the sync command

    A shallow embedding of

    - [internal/storage/dolt/migrations/003_orphan_detection.go]
      ([OrphanInfo], [QueryOrphanedChildren], [DetectOrphanedChildren]),
    - the migration helpers exercised by the package's tests
      ([tableExists], [columnExists], [MigrateWispTypeColumn]),
    - the [Run] function of [syncCmd] in [cmd/bd].

    The relational engine is the collaborator behind [database/sql]: it is
    modelled by a catalog of tables, the meaning of the handful of SQL
    statements this code sends, and a description of the faults the link to
    the engine may show.  Go's [(value, error)] results are sums, Go's
    side effects (driver calls, [log.Printf], writes to standard error) are
    threaded explicitly and recorded in a trace. *)

From stdpp Require Import gmap strings list sorting.
From Stdlib Require Import ZArith Ascii.

Local Open Scope string_scope.
Local Open Scope Z_scope.
Local Open Scope list_scope.

(** ** Go values shared by both packages *)

(** A Go [error]: either a leaf message, or a message wrapping a cause
    ([fmt.Errorf] with the [%w] verb). *)
Inductive error : Type :=
| errorString (msg : string)
| wrapError (context : string) (cause : error).

Global Instance error_eq_dec : EqDecision error.
Proof. solve_decision. Defined.

(** Arguments handed to a [Printf]-style call. *)
Inductive Arg : Type :=
| ArgInt (n : nat)
| ArgStr (s : string)
| ArgErr (e : error).

Global Instance Arg_eq_dec : EqDecision Arg.
Proof. solve_decision. Defined.

(** A Go pair [(v, err)]: [Ok v] is [(v, nil)], [Err e] is [(zero, e)]. *)
Inductive result (A : Type) : Type :=
| Ok (v : A)
| Err (e : error).
Arguments Ok {A} v.
Arguments Err {A} e.

Definition is_Err {A} (r : result A) : bool :=
  match r with Ok _ => false | Err _ => true end.

(** [fmt.Errorf(context ++ ": %w", err)] *)
Definition Errorf (context : string) (err : error) : error :=
  wrapError context err.

(** ** The relational engine *)

Module sql.

(** A row of the [issues] table as the tests create it:
    [id VARCHAR PRIMARY KEY, title VARCHAR NOT NULL,
     status VARCHAR NOT NULL DEFAULT 'open', ephemeral, pinned];
    [added] holds the values of columns added later by migrations. *)
Record IssueRow : Type := mkIssueRow {
  id : string;
  title : string;
  status : string;
  ephemeral : bool;
  pinned : bool;
  added : gmap string string
}.

Definition base_columns : list string :=
  ["id"; "title"; "status"; "ephemeral"; "pinned"]%string.

(** [added_columns] lists the columns added after creation, each with its
    default. *)
Record Table : Type := mkTable {
  added_columns : list (string * string);
  rows : list IssueRow
}.

Definition columns (t : Table) : list string :=
  base_columns ++ (added_columns t).*1.

(** The statements this code base sends to the engine. *)
Inductive Stmt : Type :=
| CATALOG_TABLE (name : string)
| CATALOG_COLUMN (table column : string)
| ALTER_TABLE_ADD_COLUMN (table column default : string)
| INSERT_INTO_ISSUES (id title status : string)
| SELECT_ORPHANS.

(** What the link to the engine does with a statement: serve it, refuse it
    ([db.Query]/[db.Exec] return the error), or break off after [n] rows
    ([rows.Next] returns false early and [rows.Err] reports the error). *)
Inductive Fault : Type :=
| NoFault
| QueryFault (e : error)
| IterFault (n : nat) (e : error).

(** The state behind a [*sql.DB] handle. *)
Record DB : Type := mkDB {
  catalog : gmap string Table;
  link : Stmt → Fault
}.

(** The rows of the [issues] table (none when the table is missing). *)
Definition issues (db : DB) : list IssueRow :=
  from_option rows [] (catalog db !! "issues"%string).

Definition ids (db : DB) : list string := id <$> issues db.

Definition has_issues_table (db : DB) : Prop :=
  is_Some (catalog db !! "issues"%string).

(** The schema state a column probe looks at. *)
Definition has_column (db : DB) (table column : string) : bool :=
  match catalog db !! table with
  | Some t => bool_decide (column ∈ columns t)
  | None => false
  end.

(** A result-set value: SQL text or NULL. *)
Definition Value : Type := option string.
Definition RawRow : Type := list Value.

(** *** SQL built-ins (MySQL semantics, binary collation)

    Positions are 1-based.  Strings are compared and measured byte-wise,
    which for the ASCII separator ['.'] selects the same prefix as the
    character-wise reading. *)

(** [INSTR(str, substr)]: position of the first occurrence, 0 if none. *)
Definition INSTR (str substr : string) : Z :=
  match String.index 0 substr str with
  | Some k => Z.of_nat (S k)
  | None => 0
  end.

(** [SUBSTRING(str, pos, len)]: empty for [len < 1] and for [pos = 0];
    a negative [pos] counts from the end. *)
Definition SUBSTRING (str : string) (pos len : Z) : string :=
  if len <? 1 then ""%string
  else if pos =? 0 then ""%string
  else if 0 <? pos then String.substring (Z.to_nat (pos - 1)) (Z.to_nat len) str
  else
    let k := Z.of_nat (String.length str) + pos in
    if k <? 0 then ""%string
    else String.substring (Z.to_nat k) (Z.to_nat len) str.

(** [x NOT IN (SELECT id FROM issues)]; [id] is a primary key, so the
    subquery yields no NULL and the test is two-valued. *)
Definition NOT_IN_ids (x : string) (issues : list IssueRow) : bool :=
  negb (bool_decide (x ∈ id <$> issues)).

(** [ORDER BY id] on projected rows [(id, title, status)]. *)
Definition by_id : relation (string * string * string) :=
  λ a b, String.le a.1.1 b.1.1.

Global Instance by_id_dec : RelDecision by_id.
Proof. intros a b. unfold by_id. apply _. Defined.

Definition ORDER_BY_id (l : list (string * string * string))
  : list (string * string * string) :=
  merge_sort by_id l.

(** The query text of [QueryOrphanedChildren]:
<<
    SELECT id, title, status
    FROM issues
    WHERE INSTR(id, '.') > 0
      AND SUBSTRING(id, 1, INSTR(id, '.') - 1) NOT IN (SELECT id FROM issues)
    ORDER BY id
>> *)
Definition orphan_where (issues : list IssueRow) (r : IssueRow) : bool :=
  (INSTR (id r) "." >? 0)
  && NOT_IN_ids (SUBSTRING (id r) 1 (INSTR (id r) "." - 1)) issues.

Definition select_orphans (issues : list IssueRow)
  : list (string * string * string) :=
  ORDER_BY_id
    ((λ r, (id r, title r, status r)) <$> filter (λ r, orphan_where issues r = true) issues).

Definition to_raw (p : string * string * string) : RawRow :=
  [Some p.1.1; Some p.1.2; Some p.2].

(** *** Meaning of the statements *)

(** Statements sent through [db.Query]. *)
Definition run_query (s : Stmt) (cat : gmap string Table) : result (list RawRow) :=
  match s with
  | CATALOG_TABLE name =>
      match cat !! name with
      | Some _ => Ok [[Some name]]
      | None => Ok []
      end
  | CATALOG_COLUMN table column =>
      match cat !! table with
      | Some t => if bool_decide (column ∈ columns t) then Ok [[Some column]] else Ok []
      | None => Ok []
      end
  | SELECT_ORPHANS =>
      match cat !! "issues"%string with
      | Some t => Ok (to_raw <$> select_orphans (rows t))
      | None => Err (errorString "table not found: issues")
      end
  | _ => Err (errorString "statement returns no rows")
  end.

Definition add_column (column default : string) (t : Table) : Table :=
  {| added_columns := added_columns t ++ [(column, default)];
     rows := (λ r, mkIssueRow (id r) (title r) (status r) (ephemeral r) (pinned r)
                     (<[column := default]> (added r))) <$> rows t |}.

Definition insert_issue (i t s : string) (tb : Table) : Table :=
  {| added_columns := added_columns tb;
     rows := rows tb ++ [mkIssueRow i t s false false (list_to_map (added_columns tb))] |}.

(** Statements sent through [db.Exec]. *)
Definition run_exec (s : Stmt) (cat : gmap string Table) : result (gmap string Table) :=
  match s with
  | ALTER_TABLE_ADD_COLUMN table column default =>
      match cat !! table with
      | Some t =>
          if bool_decide (column ∈ columns t)
          then Err (errorString "duplicate column name")
          else Ok (<[table := add_column column default t]> cat)
      | None => Err (errorString "table not found")
      end
  | INSERT_INTO_ISSUES i t s =>
      match cat !! "issues"%string with
      | Some tb =>
          if bool_decide (i ∈ id <$> rows tb)
          then Err (errorString "duplicate primary key")
          else Ok (<["issues"%string := insert_issue i t s tb]> cat)
      | None => Err (errorString "table not found: issues")
      end
  | _ => Ok cat
  end.

End sql.

(** ** Effects

    A computation reads and updates a state [S] and appends the events it
    causes to a trace.  It is used over the database handle (package
    [migrations]) and over the process environment of the command line
    tool (package [main]). *)

Definition M (S E A : Type) : Type := S → A * S * list E.

Definition ret {S E A} (a : A) : M S E A := λ s, (a, s, []).

Definition bind {S E A B} (m : M S E A) (k : A → M S E B) : M S E B :=
  λ s,
    let '(a, s1, t1) := m s in
    let '(b, s2, t2) := k a s1 in
    (b, s2, t1 ++ t2).

(** Read the state without changing it. *)
Definition gets {S E A} (f : S → A) : M S E A := λ s, (f s, s, []).

Declare Scope go_scope.
Delimit Scope go_scope with go.
Notation "x <- m ;; k" := (bind m (λ x, k))
  (at level 100, m at next level, right associativity) : go_scope.
Notation "m ;;; k" := (bind m (λ _, k))
  (at level 100, right associativity) : go_scope.
Local Open Scope go_scope.

Definition value_of {S E A} (o : A * S * list E) : A := o.1.1.
Definition state_of {S E A} (o : A * S * list E) : S := o.1.2.
Definition trace_of {S E A} (o : A * S * list E) : list E := o.2.

(** [for _, x := range l { body }] *)
Fixpoint for_range {S E A} (l : list A) (body : A → M S E unit) : M S E unit :=
  match l with
  | [] => ret tt
  | x :: l' => body x ;;; for_range l' body
  end.

(** ** Driver calls and log output over the database handle *)

Inductive Event : Type :=
| EvQuery (s : sql.Stmt)
| EvExec (s : sql.Stmt)
| EvLog (format : string) (args : list Arg).

Abbreviation Mdb := (M sql.DB Event).

(** [*sql.Rows]: the rows still to be delivered by [Next], and what [Err]
    reports once [Next] has returned false. *)
Record Rows : Type := mkRows {
  pending : list sql.RawRow;
  failure : option error
}.

(** [db.Query(stmt)]; reading never changes the catalog. *)
Definition db_Query (s : sql.Stmt) : Mdb (result Rows) :=
  λ db,
    let r :=
      match sql.link db s with
      | sql.QueryFault e => Err e
      | sql.NoFault =>
          match sql.run_query s (sql.catalog db) with
          | Ok rs => Ok (mkRows rs None)
          | Err e => Err e
          end
      | sql.IterFault n e =>
          match sql.run_query s (sql.catalog db) with
          | Ok rs => Ok (mkRows (take n rs) (Some e))
          | Err e' => Err e'
          end
      end in
    (r, db, [EvQuery s]).

(** [db.Exec(stmt)]; on success the catalog is replaced. *)
Definition db_Exec (s : sql.Stmt) : Mdb (option error) :=
  λ db,
    match sql.link db s with
    | sql.QueryFault e => (Some e, db, [EvExec s])
    | _ =>
        match sql.run_exec s (sql.catalog db) with
        | Ok cat => (None, sql.mkDB cat (sql.link db), [EvExec s])
        | Err e => (Some e, db, [EvExec s])
        end
    end.

(** [log.Printf(format, args...)] *)
Definition log_Printf (format : string) (args : list Arg) : Mdb unit :=
  λ db, (tt, db, [EvLog format args]).

(** [rows.Scan(&a, &b, &c)] into three Go strings. *)
Definition rows_Scan3 (r : sql.RawRow) : result (string * string * string) :=
  match r with
  | [Some a; Some b; Some c] => Ok (a, b, c)
  | [_; _; _] => Err (errorString "sql: Scan error: converting NULL to string is unsupported")
  | _ => Err (errorString "sql: expected 3 destination arguments in Scan")
  end.

(** ** Package [migrations] *)

Module migrations.

(** [003_orphan_detection.go] *)

Record OrphanInfo : Type := mkOrphanInfo {
  ID : string;
  Title : string;
  Status : string
}.

Global Instance OrphanInfo_eq_dec : EqDecision OrphanInfo.
Proof. solve_decision. Defined.

(** The loop [for rows.Next() { ... rows.Scan ...; orphans = append(orphans, o) }]
    over the rows the cursor delivers. *)
Fixpoint scan_orphans (rs : list sql.RawRow) (orphans : list OrphanInfo)
  : result (list OrphanInfo) :=
  match rs with
  | [] => Ok orphans
  | r :: rs' =>
      match rows_Scan3 r with
      | Err err => Err (Errorf "failed to scan orphan row" err)
      | Ok (a, b, c) => scan_orphans rs' (orphans ++ [mkOrphanInfo a b c])
      end
  end.

Definition QueryOrphanedChildren : Mdb (result (list OrphanInfo)) :=
  r <- db_Query sql.SELECT_ORPHANS ;;
  match r with
  | Err err => ret (Err (Errorf "orphan query failed" err))
  | Ok rows =>
      match scan_orphans (pending rows) [] with
      | Err err => ret (Err err)
      | Ok orphans =>
          match failure rows with
          | Some err => ret (Err (Errorf "orphan query iteration failed" err))
          | None => ret (Ok orphans)
          end
      end
  end.

Section Detect.

(** [tableExists] lives in the package's helper file; the detection step is
    written against any implementation of it. *)
Variable tableExists : string → Mdb (result bool).

Definition DetectOrphanedChildren : Mdb (option error) :=
  r <- tableExists "issues" ;;
  match r with
  | Err err => ret (Some (Errorf "failed to check issues table" err))
  | Ok exists_ =>
      if negb exists_ then ret None
      else
        r <- QueryOrphanedChildren ;;
        match r with
        | Err err => ret (Some (Errorf "failed to detect orphaned children" err))
        | Ok orphans =>
            if (length orphans =? 0)%nat then ret None
            else
              log_Printf "orphan detection: found %d orphaned child issue(s):"
                         [ArgInt (length orphans)] ;;;
              for_range orphans (λ o,
                log_Printf "  orphan: %s (title=%q, status=%s)"
                           [ArgStr (ID o); ArgStr (Title o); ArgStr (Status o)]) ;;;
              log_Printf "orphan detection: run 'bd doctor --fix' to repair orphaned children" [] ;;;
              ret None
        end
  end.

End Detect.

(** Modelled from the spec: the helper [tableExists] is not among the
    sources.  Section 4.1: it "queries catalog metadata for a table named
    [name]", "returns [false] (not an error) when the table is absent", is a
    pure read, and its failures, "underlying connectivity/catalog errors",
    "propagate wrapped with operation context" (section 7: "always
    propagated"): a refused query and a cursor that breaks off both end in
    an error, never in an answer. *)
Definition tableExists (name : string) : Mdb (result bool) :=
  r <- db_Query (sql.CATALOG_TABLE name) ;;
  match r with
  | Err err => ret (Err (Errorf "failed to check table existence" err))
  | Ok rows =>
      match failure rows with
      | Some err => ret (Err (Errorf "failed to check table existence" err))
      | None => ret (Ok (bool_decide (pending rows ≠ [])))
      end
  end.

(** Modelled from the spec: the helper [columnExists] is not among the
    sources.  Section 4.1: it "queries catalog metadata for column presence
    on [table]" and "returns [false], not an error, when either the table or
    the column is absent"; its failures propagate wrapped as those of
    [tableExists] do, so that a migration "never silently proceeds with an
    ambiguous schema state" (section 4.2). *)
Definition columnExists (table column : string) : Mdb (result bool) :=
  r <- db_Query (sql.CATALOG_COLUMN table column) ;;
  match r with
  | Err err => ret (Err (Errorf "failed to check column existence" err))
  | Ok rows =>
      match failure rows with
      | Some err => ret (Err (Errorf "failed to check column existence" err))
      | None => ret (Ok (bool_decide (pending rows ≠ [])))
      end
  end.

(** Modelled from the spec: the migration [MigrateWispTypeColumn] is not
    among the sources (only its test is).  Section 4.2: it "checks
    [ColumnExists(issues, wisp_type)]; if absent, issues an additive
    column-add with a default; if present, returns success without touching
    the schema"; a failing introspection call aborts the migration with the
    wrapped error. *)
Definition MigrateWispTypeColumn : Mdb (option error) :=
  r <- columnExists "issues" "wisp_type" ;;
  match r with
  | Err err => ret (Some (Errorf "failed to check wisp_type column" err))
  | Ok exists_ =>
      if exists_ then ret None
      else
        err <- db_Exec (sql.ALTER_TABLE_ADD_COLUMN "issues" "wisp_type" "") ;;
        match err with
        | Some err => ret (Some (Errorf "failed to add wisp_type column" err))
        | None => ret None
        end
  end.

End migrations.

(** ** Package [main] of [cmd/bd]: the [sync] command *)

Module bd.

(** What one run of the command does to its surroundings, in order: calls
    on the store (with what they returned), the JSONL export, and lines
    written with [fmt.Fprintf(os.Stderr, ...)].  Format strings are kept as
    the source spells them. *)
Inductive Event : Type :=
| EvCommit (msg : string) (err : option error)
| EvExport (path : string) (err : option error)
| EvHasRemote (name : string) (hasRemote : bool) (err : option error)
| EvPush (err : option error)
| EvStderr (format : string) (args : list Arg).

(** The collaborators of the command, over a process state [W]: the global
    [store], the configuration, the file system.  They are defined elsewhere
    in the repository; the command is written against their signatures. *)
Class Env (W : Type) : Type := {
  (** [store == nil] *)
  store_nil : W → bool;
  (** [beads.FindBeadsDir()] *)
  FindBeadsDir : W → string;
  (** [getActor()] *)
  getActor : W → string;
  (** [config.GetSyncMode()] and the constant [config.SyncModeDoltNative] *)
  GetSyncMode : W → string;
  SyncModeDoltNative : string;
  (** [isDoltNothingToCommit(err)] *)
  isDoltNothingToCommit : error → bool;
  (** [filepath.Join(dir, name)] *)
  filepath_Join : string → string → string;
  (** [store.Commit(rootCtx, msg)] *)
  store_Commit : string → W → option error * W;
  (** [store.HasRemote(rootCtx, name)] *)
  store_HasRemote : string → W → bool * option error * W;
  (** [store.Push(rootCtx)] *)
  store_Push : W → option error * W;
  (** [exportToJSONLWithStore(rootCtx, store, path)] *)
  exportToJSONLWithStore : string → W → option error * W
}.

Section Sync.

Context {W : Type} `{Env W}.

Abbreviation Mw := (M W Event).

Definition Commit (msg : string) : Mw (option error) :=
  λ w, let '(err, w') := store_Commit msg w in (err, w', [EvCommit msg err]).

Definition HasRemote (name : string) : Mw (bool * option error) :=
  λ w, let '(b, err, w') := store_HasRemote name w in ((b, err), w', [EvHasRemote name b err]).

Definition Push : Mw (option error) :=
  λ w, let '(err, w') := store_Push w in (err, w', [EvPush err]).

Definition Export (path : string) : Mw (option error) :=
  λ w, let '(err, w') := exportToJSONLWithStore path w in (err, w', [EvExport path err]).

Definition Fprintf_Stderr (format : string) (args : list Arg) : Mw unit :=
  λ w, (tt, w, [EvStderr format args]).

(** [fmt.Sprintf("bd sync (auto-commit) by %s", actor)] *)
Definition commit_message (actor : string) : string :=
  "bd sync (auto-commit) by " +:+ actor.

(** The [Run] function of [syncCmd]. *)
Definition syncCmd_Run : Mw unit :=
  nil_store <- gets store_nil ;;
  if nil_store then ret tt (* No database open, nothing to export *)
  else
    beadsDir <- gets FindBeadsDir ;;
    if bool_decide (beadsDir = "") then ret tt
    else
      actor <- gets getActor ;;
      let commitMsg := commit_message actor in
      err <- Commit commitMsg ;;
      match err with
      | Some err =>
          if negb (isDoltNothingToCommit err)
          then Fprintf_Stderr "Warning: Dolt commit failed: %v\n" [ArgErr err]
          else ret tt
      | None => ret tt
      end ;;;
      mode <- gets GetSyncMode ;;
      if bool_decide (mode = SyncModeDoltNative) then
        r <- HasRemote "origin" ;;
        let '(hasRemote, err) := r in
        if bool_decide (err = None) && hasRemote then
          err <- Push ;;
          match err with
          | Some err => Fprintf_Stderr "Warning: Dolt push failed: %v\n" [ArgErr err]
          | None => Fprintf_Stderr "Pushed to Dolt git remote\n" []
          end
        else ret tt
      else
        let jsonlPath := filepath_Join beadsDir "issues.jsonl" in
        err <- Export jsonlPath ;;
        match err with
        | Some err => Fprintf_Stderr "Warning: export failed: %v\n" [ArgErr err]
        | None => ret tt
        end ;;;
        r <- HasRemote "origin" ;;
        let '(hasRemote, err) := r in
        if bool_decide (err = None) && hasRemote then
          err <- Push ;;
          match err with
          | Some err => Fprintf_Stderr "Warning: Dolt push failed: %v\n" [ArgErr err]
          | None => Fprintf_Stderr "Pushed to Dolt git remote\n" []
          end
        else ret tt.

End Sync.

End bd.

(** ** The specification's vocabulary *)

Module spec.

(** "an explicit parse function [firstSeparatorPrefix(id) -> Option<string>]":
    the text of [s] strictly before its first ['.'], when [s] has one. *)
Fixpoint firstSeparatorPrefix (s : string) : option string :=
  match s with
  | EmptyString => None
  | String c s' =>
      if Ascii.eqb c "."%char then Some EmptyString
      else String c <$> firstSeparatorPrefix s'
  end.

(** A root issue: its ID holds no separator. *)
Definition is_root (s : string) : Prop := firstSeparatorPrefix s = None.

(** "an issue whose ID encodes a parent prefix that does not correspond to
    any existing row". *)
Definition orphan (issues : list sql.IssueRow) (r : sql.IssueRow) : Prop :=
  ∃ p, firstSeparatorPrefix (sql.id r) = Some p ∧ p ∉ sql.id <$> issues.

Global Instance orphan_dec issues r : Decision (orphan issues r).
Proof.
  unfold orphan. destruct (firstSeparatorPrefix (sql.id r)) as [p|].
  - destruct (decide (p ∈ sql.id <$> issues)) as [Hin|Hout].
    + right. intros (q & Hq & Hn). congruence.
    + left. eauto.
  - right. intros (q & Hq & _). discriminate.
Defined.

(** The projection [{ID, Title, Status}] of a row. *)
Definition project (r : sql.IssueRow) : migrations.OrphanInfo :=
  migrations.mkOrphanInfo (sql.id r) (sql.title r) (sql.status r).

(** The [OrphanInfo] that scanning a result row [(id, title, status)] fills. *)
Definition of_triple (p : string * string * string) : migrations.OrphanInfo :=
  migrations.mkOrphanInfo p.1.1 p.1.2 p.2.

(** Ascending by ID, lexicographically. *)
Definition ascending : relation migrations.OrphanInfo :=
  λ a b, String.le (migrations.ID a) (migrations.ID b).

(** [n] successive runs of a computation: what each run returned and
    traced, and the state left behind by the last one. *)
Fixpoint run_times {S E A} (n : nat) (m : M S E A) (s : S) : list (A * list E) * S :=
  match n with
  | O => ([], s)
  | Datatypes.S n' =>
      let o := m s in
      let '(l, s') := run_times n' m (state_of o) in
      ((value_of o, trace_of o) :: l, s')
  end.

(** "a human-readable report per orphan plus a remediation hint": the log
    lines of one detection run that found [orphans]; nothing is logged when
    there are none. *)
Definition orphan_report (orphans : list migrations.OrphanInfo) : list Event :=
  match orphans with
  | [] => []
  | _ =>
      EvLog "orphan detection: found %d orphaned child issue(s):" [ArgInt (length orphans)]
      :: ((λ o, EvLog "  orphan: %s (title=%q, status=%s)"
                  [ArgStr (migrations.ID o); ArgStr (migrations.Title o);
                   ArgStr (migrations.Status o)]) <$> orphans)
      ++ [EvLog "orphan detection: run 'bd doctor --fix' to repair orphaned children" []]
  end.

(** The events of a [sync] run that a user sees on standard error. *)
Definition is_stderr (e : bd.Event) : bool :=
  match e with bd.EvStderr _ _ => true | _ => false end.

Definition is_push (e : bd.Event) : bool :=
  match e with bd.EvPush _ => true | _ => false end.

Definition is_export (e : bd.Event) : bool :=
  match e with bd.EvExport _ _ => true | _ => false end.

Definition is_commit_warning (e : bd.Event) : bool :=
  match e with
  | bd.EvStderr format _ => bool_decide (format = "Warning: Dolt commit failed: %v\n")
  | _ => false
  end.

(** The stages of one [sync] run with an open store and a metadata
    directory, read off the process state [w] the run starts in. *)
Section Stages.

Context {W : Type} `{bd.Env W}.

Definition commit_msg (w : W) : string := bd.commit_message (bd.getActor w).

(** What [store.Commit] answers, and the state it leaves. *)
Definition commit_result (w : W) : option error := (bd.store_Commit (commit_msg w) w).1.
Definition after_commit (w : W) : W := (bd.store_Commit (commit_msg w) w).2.

(** The mode branch: native or mirror. *)
Definition native (w : W) : bool :=
  bool_decide (bd.GetSyncMode (after_commit w) = bd.SyncModeDoltNative).

Definition jsonl_path (w : W) : string := bd.filepath_Join (bd.FindBeadsDir w) "issues.jsonl".

(** What the export answers in mirror mode, and the state before the
    remote check. *)
Definition export_result (w : W) : option error :=
  (bd.exportToJSONLWithStore (jsonl_path w) (after_commit w)).1.
Definition before_push (w : W) : W :=
  if native w then after_commit w
  else (bd.exportToJSONLWithStore (jsonl_path w) (after_commit w)).2.

(** What [store.HasRemote] and, if called, [store.Push] answer. *)
Definition remote_result (w : W) : bool * option error :=
  (bd.store_HasRemote "origin" (before_push w)).1.
Definition push_result (w : W) : option error :=
  (bd.store_Push (bd.store_HasRemote "origin" (before_push w)).2).1.

(** The events of each step. *)
Definition commit_events (msg : string) (err : option error) : list bd.Event :=
  bd.EvCommit msg err ::
  match err with
  | Some e =>
      if bd.isDoltNothingToCommit e then []
      else [bd.EvStderr "Warning: Dolt commit failed: %v\n" [ArgErr e]]
  | None => []
  end.

Definition export_events (path : string) (err : option error) : list bd.Event :=
  bd.EvExport path err ::
  match err with
  | Some e => [bd.EvStderr "Warning: export failed: %v\n" [ArgErr e]]
  | None => []
  end.

Definition push_events (hasRemote : bool) (herr perr : option error) : list bd.Event :=
  bd.EvHasRemote "origin" hasRemote herr ::
  if bool_decide (herr = None) && hasRemote then
    [bd.EvPush perr;
     match perr with
     | Some e => bd.EvStderr "Warning: Dolt push failed: %v\n" [ArgErr e]
     | None => bd.EvStderr "Pushed to Dolt git remote\n" []
     end]
  else [].

End Stages.

End spec.

(** ** Fixtures *)

Module fixtures.

(** The database [openTestDolt] hands to each test: an empty [issues] table
    in the old schema, behind a link that serves every statement. *)
Definition openTestDolt : sql.DB :=
  sql.mkDB {["issues" := sql.mkTable [] []]} (λ _, sql.NoFault).

(** A database [beads] without any table. *)
Definition no_tables : sql.DB := sql.mkDB ∅ (λ _, sql.NoFault).

(** [db.Exec] of each statement in turn, as the tests set up their rows. *)
Definition setup (stmts : list sql.Stmt) (db : sql.DB) : sql.DB :=
  state_of (for_range stmts (λ s, db_Exec s ;;; ret tt) db).

(** [TestDetectOrphanedChildren_NoOrphans] *)
Definition no_orphans : sql.DB :=
  setup [sql.INSERT_INTO_ISSUES "bd-abc123" "Parent" "open";
         sql.INSERT_INTO_ISSUES "bd-abc123.1" "Child" "open"] openTestDolt.

(** [TestDetectOrphanedChildren_TopLevelOnly] *)
Definition top_level_only : sql.DB :=
  setup [sql.INSERT_INTO_ISSUES "bd-aaa" "Issue 1" "open";
         sql.INSERT_INTO_ISSUES "bd-bbb" "Issue 2" "closed"] openTestDolt.

(** [TestDetectOrphanedChildren_WithOrphans] *)
Definition with_orphans : sql.DB :=
  setup [sql.INSERT_INTO_ISSUES "bd-abc123.1" "Orphan Child 1" "open";
         sql.INSERT_INTO_ISSUES "bd-abc123.2" "Orphan Child 2" "closed";
         sql.INSERT_INTO_ISSUES "bd-def456" "Other Parent" "open";
         sql.INSERT_INTO_ISSUES "bd-def456.1" "Not Orphan" "open"] openTestDolt.

(** [TestDetectOrphanedChildren_DeepNesting] *)
Definition deep_nesting : sql.DB :=
  setup [sql.INSERT_INTO_ISSUES "bd-abc123" "Parent" "open";
         sql.INSERT_INTO_ISSUES "bd-abc123.1.1" "Grandchild" "open"] openTestDolt.

(** The deep-nesting table with one more, unrelated, child. *)
Definition deep_nesting_and_stray : sql.DB :=
  setup [sql.INSERT_INTO_ISSUES "bd-zzz.1" "Stray" "open"] deep_nesting.

(** [TestDetectOrphanedChildren_Idempotent] *)
Definition one_orphan : sql.DB :=
  setup [sql.INSERT_INTO_ISSUES "bd-gone.1" "Orphan" "open"] openTestDolt.

(** A process environment whose collaborators answer from a script and keep
    count of the calls that reached the store. *)
Record Scripted : Type := mkScripted {
  s_store_nil : bool;
  s_beadsDir : string;
  s_actor : string;
  s_mode : string;
  s_commit : option error;
  s_export : option error;
  s_hasRemote : bool * option error;
  s_push : option error;
  s_calls : nat
}.

Definition tick (w : Scripted) : Scripted :=
  mkScripted (s_store_nil w) (s_beadsDir w) (s_actor w) (s_mode w) (s_commit w)
             (s_export w) (s_hasRemote w) (s_push w) (Datatypes.S (s_calls w)).

Global Instance Scripted_Env : bd.Env Scripted := {|
  bd.store_nil := s_store_nil;
  bd.FindBeadsDir := s_beadsDir;
  bd.getActor := s_actor;
  bd.GetSyncMode := s_mode;
  bd.SyncModeDoltNative := "dolt-native";
  bd.isDoltNothingToCommit := λ e,
    bool_decide (e = errorString "nothing to commit");
  bd.filepath_Join := λ d f, d +:+ "/" +:+ f;
  bd.store_Commit := λ _ w, (s_commit w, tick w);
  bd.store_HasRemote := λ _ w, (s_hasRemote w, tick w);
  bd.store_Push := λ w, (s_push w, tick w);
  bd.exportToJSONLWithStore := λ _ w, (s_export w, tick w)
|}.

(** Section 8, sync scenario: store open, mirror mode, nothing to commit,
    no remote configured. *)
Definition mirror_no_remote : Scripted :=
  mkScripted false ".beads" "alice" "git-portable"
    (Some (errorString "nothing to commit")) None (false, None) None 0.

(** No store was opened. *)
Definition closed_store : Scripted :=
  mkScripted true ".beads" "alice" "git-portable" None None (true, None) None 0.

(** A store is open but no metadata directory is found. *)
Definition no_beads_dir : Scripted :=
  mkScripted false "" "alice" "git-portable" None None (true, None) None 0.

(** The commit fails for a reason other than "nothing to commit"; mirror
    mode, remote configured. *)
Definition commit_fails : Scripted :=
  mkScripted false ".beads" "alice" "git-portable"
    (Some (errorString "database is read only")) None (true, None) None 0.

(** Mirror mode, the export fails, a remote is configured. *)
Definition export_fails : Scripted :=
  mkScripted false ".beads" "alice" "git-portable"
    None (Some (errorString "permission denied")) (true, None) None 0.

(** Native mode with a remote. *)
Definition native_with_remote : Scripted :=
  mkScripted false ".beads" "alice" "dolt-native" None None (true, None) None 0.

(** The remote check itself fails (and happens to report a remote). *)
Definition remote_check_fails : Scripted :=
  mkScripted false ".beads" "alice" "dolt-native"
    None None (true, Some (errorString "connection refused")) None 0.

End fixtures.

(** ** Further code and vocabulary *)

(** Go's [errors] package on the error values above: [Unwrap] peels one
    [%w] layer, [Is] looks for a target anywhere along the chain. *)
Module errors.

Definition Unwrap (err : error) : option error :=
  match err with
  | wrapError _ cause => Some cause
  | errorString _ => None
  end.

Fixpoint Is (err target : error) : bool :=
  bool_decide (err = target)
  || match err with
     | wrapError _ cause => Is cause target
     | errorString _ => false
     end.

End errors.

(** [cmd/bd/doctor/sqlite_open_nocgo.go] (build tag [!cgo]) *)
Module doctor.

Definition sqliteConnString (path : string) (readOnly : bool) : string := "".

End doctor.

(** [cmd/bd/doctor/fix/sqlite_open_nocgo.go] (build tag [!cgo]) *)
Module doctor_fix.

Definition sqliteConnString (path : string) (readOnly : bool) : string := "".

End doctor_fix.

Module observe.

(** Strictly ascending by ID. *)
Definition strictly_ascending : relation migrations.OrphanInfo :=
  λ a b, String.le (migrations.ID a) (migrations.ID b) ∧ migrations.ID a ≠ migrations.ID b.

(** The log lines among the events of a detection run. *)
Definition is_log (e : Event) : bool :=
  match e with EvLog _ _ => true | _ => false end.

(** The calls on the store and the export among the events of a [sync]
    run, that is everything but the lines on standard error. *)
Definition is_call (e : bd.Event) : bool := negb (spec.is_stderr e).

(** A database like [db] whose link refuses the orphan query. *)
Definition refusing (e : error) (db : sql.DB) : sql.DB :=
  sql.mkDB (sql.catalog db)
    (λ s, match s with sql.SELECT_ORPHANS => sql.QueryFault e | _ => sql.link db s end).

(** A database like [db] whose link breaks off the orphan query after [n]
    rows. *)
Definition breaking (n : nat) (e : error) (db : sql.DB) : sql.DB :=
  sql.mkDB (sql.catalog db)
    (λ s, match s with sql.SELECT_ORPHANS => sql.IterFault n e | _ => sql.link db s end).

Definition refused_orphans : sql.DB :=
  refusing (errorString "server gone") fixtures.with_orphans.

Definition broken_orphans : sql.DB :=
  breaking 1 (errorString "connection reset") fixtures.with_orphans.

(** A grandchild whose parent [bd-mid.1] exists while the root [bd-mid] is
    missing. *)
Definition missing_root : sql.DB :=
  fixtures.setup [sql.INSERT_INTO_ISSUES "bd-mid.1" "Child" "open";
                  sql.INSERT_INTO_ISSUES "bd-mid.1.1" "Grandchild" "open"]
    fixtures.openTestDolt.

(** The rows of [TestDetectOrphanedChildren_WithOrphans], the first one
    inserted last. *)
Definition with_orphans_reordered : sql.DB :=
  fixtures.setup [sql.INSERT_INTO_ISSUES "bd-abc123.2" "Orphan Child 2" "closed";
                  sql.INSERT_INTO_ISSUES "bd-def456" "Other Parent" "open";
                  sql.INSERT_INTO_ISSUES "bd-def456.1" "Not Orphan" "open";
                  sql.INSERT_INTO_ISSUES "bd-abc123.1" "Orphan Child 1" "open"]
    fixtures.openTestDolt.

(** [TestDetectOrphanedChildren_DeepNesting] with one more top-level
    issue. *)
Definition deep_nesting_and_root : sql.DB :=
  fixtures.setup [sql.INSERT_INTO_ISSUES "bd-other" "Other" "open"] fixtures.deep_nesting.

(** A [sync] environment in which the push itself fails. *)
Definition push_fails : fixtures.Scripted :=
  fixtures.mkScripted false ".beads" "alice" "dolt-native"
    None None (true, None) (Some (errorString "remote rejected")) 0.

End observe.

(** * Properties *)

(** ** The SQL built-ins against the specification's prefix function *)

Section Prefix.

Lemma index_dot_cons (c : ascii) (s : string) :
  String.index 0 "." (String c s) =
    if Ascii.eqb c "."%char then Some 0%nat
    else S <$> String.index 0 "." s.
Proof.
  cbn [String.index String.prefix].
  destruct (ascii_dec "." c) as [<-|Hne].
  - destruct s; reflexivity.
  - destruct (Ascii.eqb_spec c "."%char) as [->|_]; [congruence|].
    destruct (String.index 0 "." s); reflexivity.
Qed.

Lemma index_dot_None (s : string) :
  spec.firstSeparatorPrefix s = None → String.index 0 "." s = None.
Proof.
  induction s as [|c s IH]; [reflexivity|].
  rewrite index_dot_cons. cbn [spec.firstSeparatorPrefix].
  destruct (Ascii.eqb c "."%char); [discriminate|].
  destruct (spec.firstSeparatorPrefix s); [discriminate|].
  intros _. rewrite IH; reflexivity.
Qed.

Lemma index_dot_Some (s p : string) :
  spec.firstSeparatorPrefix s = Some p →
  String.index 0 "." s = Some (String.length p)
  ∧ String.substring 0 (String.length p) s = p.
Proof.
  revert p. induction s as [|c s IH]; intros p; [discriminate|].
  rewrite index_dot_cons. cbn [spec.firstSeparatorPrefix].
  destruct (Ascii.eqb c "."%char).
  - intros [= <-]. split; reflexivity.
  - destruct (spec.firstSeparatorPrefix s) as [q|]; [|discriminate].
    intros [= <-]. destruct (IH q eq_refl) as [-> Hsub].
    split; [reflexivity|]. cbn. by rewrite Hsub.
Qed.

(** [INSTR(id, '.') > 0] says that the ID holds a separator. *)
Lemma INSTR_positive (s : string) :
  (sql.INSTR s "." >? 0) = true ↔ is_Some (spec.firstSeparatorPrefix s).
Proof.
  unfold sql.INSTR. destruct (spec.firstSeparatorPrefix s) as [p|] eqn:E.
  - destruct (index_dot_Some _ _ E) as [-> _]. split; [eauto|intros _; apply Z.gtb_lt; lia].
  - rewrite (index_dot_None _ E). split; [discriminate|]. by intros [? ?].
Qed.

(** [SUBSTRING(id, 1, INSTR(id, '.') - 1)] is the text before the first
    separator. *)
Lemma SUBSTRING_prefix (s p : string) :
  spec.firstSeparatorPrefix s = Some p →
  sql.SUBSTRING s 1 (sql.INSTR s "." - 1) = p.
Proof.
  intros E. destruct (index_dot_Some _ _ E) as [Hi Hs].
  unfold sql.INSTR, sql.SUBSTRING. rewrite Hi.
  replace (Z.of_nat (S (String.length p)) - 1) with (Z.of_nat (String.length p)) by lia.
  destruct (Z.ltb_spec (Z.of_nat (String.length p)) 1) as [Hlt|Hge].
  - destruct p; [reflexivity|cbn in Hlt; lia].
  - cbn [Z.eqb Z.ltb Z.compare]. rewrite Nat2Z.id.
    change (Z.to_nat (1 - 1)) with 0%nat. exact Hs.
Qed.

(** The [WHERE] clause selects the orphans of the specification. *)
Lemma orphan_where_spec (issues : list sql.IssueRow) (r : sql.IssueRow) :
  sql.orphan_where issues r = true ↔ spec.orphan issues r.
Proof.
  unfold sql.orphan_where, spec.orphan, sql.NOT_IN_ids.
  rewrite andb_true_iff, INSTR_positive, negb_true_iff, bool_decide_eq_false.
  split.
  - intros [[p Hp] Hn]. exists p. split; [done|].
    by rewrite (SUBSTRING_prefix _ _ Hp) in Hn.
  - intros (p & Hp & Hn). split; [eauto|].
    by rewrite (SUBSTRING_prefix _ _ Hp).
Qed.

End Prefix.

(** ** The orphan query *)

Section Query.

Local Instance by_id_total : Total sql.by_id.
Proof. intros a b. unfold sql.by_id. apply String.le_total. Qed.

Local Instance by_id_trans : Transitive sql.by_id.
Proof. intros a b c. unfold sql.by_id. apply transitivity. Qed.

(** Scanning rows of three non-NULL values never fails and appends one
    [OrphanInfo] per row, in order. *)
Lemma scan_orphans_raw (l : list (string * string * string)) acc :
  migrations.scan_orphans (sql.to_raw <$> l) acc = Ok (acc ++ (spec.of_triple <$> l)).
Proof.
  revert acc. induction l as [|[[a b] c] l IH]; intros acc; csimpl.
  - by rewrite app_nil_r.
  - rewrite IH. by rewrite <- app_assoc.
Qed.

(** On a served query over an existing table, [QueryOrphanedChildren]
    returns the rows of the [SELECT], leaves the handle as it was and sends
    one statement. *)
Lemma QueryOrphanedChildren_served (db : sql.DB) :
  sql.has_issues_table db →
  sql.link db sql.SELECT_ORPHANS = sql.NoFault →
  migrations.QueryOrphanedChildren db =
    (Ok (spec.of_triple <$> sql.select_orphans (sql.issues db)), db, [EvQuery sql.SELECT_ORPHANS]).
Proof.
  intros [t Ht] Hl. unfold migrations.QueryOrphanedChildren, bind, db_Query, sql.issues.
  rewrite Hl. cbn [sql.run_query]. rewrite Ht. cbn [pending failure from_option].
  by rewrite scan_orphans_raw.
Qed.

Lemma select_orphans_perm (issues : list sql.IssueRow) :
  spec.of_triple <$> sql.select_orphans issues
    ≡ₚ spec.project <$> filter (spec.orphan issues) issues.
Proof.
  unfold sql.select_orphans, sql.ORDER_BY_id.
  rewrite merge_sort_Permutation, <- list_fmap_compose.
  rewrite (list_filter_iff _ (spec.orphan issues)) by (intros r; apply orphan_where_spec).
  reflexivity.
Qed.

Lemma select_orphans_sorted (issues : list sql.IssueRow) :
  StronglySorted spec.ascending (spec.of_triple <$> sql.select_orphans issues).
Proof.
  unfold sql.select_orphans, sql.ORDER_BY_id.
  apply (StronglySorted_fmap _ sql.by_id); [by intros [[a b] c] [[a' b'] c']|].
  apply StronglySorted_merge_sort; apply _.
Qed.

(** [id] is the primary key: a row is determined by its ID. *)
Lemma row_determined_by_id (issues : list sql.IssueRow) (r1 r2 : sql.IssueRow) :
  NoDup (sql.id <$> issues) → r1 ∈ issues → r2 ∈ issues →
  sql.id r1 = sql.id r2 → r1 = r2.
Proof.
  induction issues as [|r l IH]; csimpl; [by intros _ ?%elem_of_nil|].
  intros [Hr Hl]%NoDup_cons [->|H1]%elem_of_cons [->|H2]%elem_of_cons E; [done|..].
  - destruct Hr. rewrite E. by apply list_elem_of_fmap_2.
  - destruct Hr. rewrite <- E. by apply list_elem_of_fmap_2.
  - by apply IH.
Qed.

(** With unique IDs the answer does not depend on how the engine sorts:
    any ascending arrangement of the selected rows is the list returned. *)
Lemma sorted_orphans_determined (issues : list sql.IssueRow)
    (l : list migrations.OrphanInfo) :
  NoDup (sql.id <$> issues) →
  l ≡ₚ spec.project <$> filter (spec.orphan issues) issues →
  StronglySorted spec.ascending l →
  l = spec.of_triple <$> sql.select_orphans issues.
Proof.
  intros Hkey Hperm Hsorted.
  apply (StronglySorted_unique_strong spec.ascending);
    [|done|apply select_orphans_sorted|by rewrite select_orphans_perm].
  intros x1 x2 H1 H2 H12 H21.
  rewrite Hperm in H1. rewrite select_orphans_perm in H2.
  apply list_elem_of_fmap in H1 as (r1 & -> & [_ H1]%list_elem_of_filter).
  apply list_elem_of_fmap in H2 as (r2 & -> & [_ H2]%list_elem_of_filter).
  f_equal. apply (row_determined_by_id issues); [done..|].
  apply (anti_symm String.le); [exact H12|exact H21].
Qed.

End Query.

(** C1. On an existing [issues] table, [QueryOrphanedChildren] returns
    exactly the rows whose ID holds the separator ['.'] and whose prefix
    before the first ['.'] is the ID of no row, each projected to
    [{ID, Title, Status}] (every such row once, nothing else), in ascending
    lexicographic order of ID.  With IDs unique, as the primary key makes
    them, this description leaves room for one list only. *)
Theorem C1_query_returns_sorted_orphans (db : sql.DB) :
  sql.has_issues_table db →
  sql.link db sql.SELECT_ORPHANS = sql.NoFault →
  ∃ orphans,
    value_of (migrations.QueryOrphanedChildren db) = Ok orphans
    ∧ orphans ≡ₚ spec.project <$> filter (spec.orphan (sql.issues db)) (sql.issues db)
    ∧ (∀ o, o ∈ orphans ↔
            ∃ r, r ∈ sql.issues db ∧ spec.orphan (sql.issues db) r ∧ o = spec.project r)
    ∧ StronglySorted spec.ascending orphans
    ∧ (NoDup (sql.ids db) →
       ∀ l, l ≡ₚ spec.project <$> filter (spec.orphan (sql.issues db)) (sql.issues db) →
            StronglySorted spec.ascending l → l = orphans).
Proof.
  intros Ht Hl. eexists. rewrite (QueryOrphanedChildren_served db Ht Hl).
  split; [reflexivity|]. split; [apply select_orphans_perm|].
  split; [|split; [apply select_orphans_sorted|]].
  - intros o. rewrite select_orphans_perm, list_elem_of_fmap.
    setoid_rewrite list_elem_of_filter. split.
    + intros (r & -> & Ho & Hr). eauto.
    + intros (r & Hr & Ho & ->). eauto.
  - intros Hkey l Hperm Hsorted. by apply sorted_orphans_determined.
Qed.

Lemma C1_query_returns_sorted_orphans_witness :
  sql.has_issues_table fixtures.with_orphans
  ∧ sql.link fixtures.with_orphans sql.SELECT_ORPHANS = sql.NoFault
  ∧ ∃ orphans,
      value_of (migrations.QueryOrphanedChildren fixtures.with_orphans) = Ok orphans
      ∧ orphans ≡ₚ spec.project <$> filter (spec.orphan (sql.issues fixtures.with_orphans))
                                          (sql.issues fixtures.with_orphans)
      ∧ StronglySorted spec.ascending orphans.
Proof.
  assert (H1 : sql.has_issues_table fixtures.with_orphans) by (vm_compute; eauto).
  assert (H2 : sql.link fixtures.with_orphans sql.SELECT_ORPHANS = sql.NoFault)
    by reflexivity.
  split; [exact H1|]. split; [exact H2|].
  destruct (C1_query_returns_sorted_orphans fixtures.with_orphans H1 H2)
    as (orphans & Hv & Hp & _ & Hs & _).
  exists orphans. split; [exact Hv|]. split; [exact Hp|exact Hs].
Defined.

(** The package's tests, replayed on the model. *)

Example TestDetectOrphanedChildren_WithOrphans :
  value_of (migrations.QueryOrphanedChildren fixtures.with_orphans) =
    Ok [migrations.mkOrphanInfo "bd-abc123.1" "Orphan Child 1" "open";
        migrations.mkOrphanInfo "bd-abc123.2" "Orphan Child 2" "closed"]
  ∧ value_of (migrations.DetectOrphanedChildren migrations.tableExists
                fixtures.with_orphans) = None.
Proof. split; vm_compute; reflexivity. Qed.

Example TestDetectOrphanedChildren_DeepNesting :
  value_of (migrations.QueryOrphanedChildren fixtures.deep_nesting) = Ok [].
Proof. vm_compute; reflexivity. Qed.

Example TestDetectOrphanedChildren_EmptyTable :
  value_of (migrations.QueryOrphanedChildren fixtures.openTestDolt) = Ok [].
Proof. vm_compute; reflexivity. Qed.

Example TestDetectOrphanedChildren_NoOrphans :
  value_of (migrations.QueryOrphanedChildren fixtures.no_orphans) = Ok []
  ∧ value_of (migrations.DetectOrphanedChildren migrations.tableExists
                fixtures.no_orphans) = None.
Proof. split; vm_compute; reflexivity. Qed.

Example TestDetectOrphanedChildren_TopLevelOnly :
  value_of (migrations.QueryOrphanedChildren fixtures.top_level_only) = Ok [].
Proof. vm_compute; reflexivity. Qed.

Example TestTableExists :
  value_of (migrations.tableExists "issues" fixtures.openTestDolt) = Ok true
  ∧ value_of (migrations.tableExists "nonexistent" fixtures.openTestDolt) = Ok false.
Proof. split; vm_compute; reflexivity. Qed.

Example TestColumnExists :
  value_of (migrations.columnExists "issues" "id" fixtures.openTestDolt) = Ok true
  ∧ value_of (migrations.columnExists "issues" "nonexistent" fixtures.openTestDolt)
    = Ok false.
Proof. split; vm_compute; reflexivity. Qed.

(** The primary key survives every [INSERT] the engine accepts. *)
Lemma insert_keeps_primary_key (cat cat' : gmap string sql.Table) (i t s : string) :
  sql.run_exec (sql.INSERT_INTO_ISSUES i t s) cat = Ok cat' →
  NoDup (sql.ids (sql.mkDB cat (λ _, sql.NoFault))) →
  NoDup (sql.ids (sql.mkDB cat' (λ _, sql.NoFault))).
Proof.
  unfold sql.ids, sql.issues. cbn [sql.run_exec sql.catalog].
  destruct (cat !! "issues") as [tb|] eqn:E; [|discriminate].
  case_bool_decide as Hi; [discriminate|]. intros [= <-] Hkey.
  rewrite lookup_insert_eq. cbn [from_option sql.insert_issue sql.rows] in *.
  rewrite fmap_app. apply NoDup_app. split; [exact Hkey|]. split.
  - intros x Hx [->|[]%elem_of_nil]%elem_of_cons. by destruct Hi.
  - apply NoDup_singleton.
Qed.

(** ** Grandchildren of an existing root *)

Section DeepNesting.

Lemma firstSeparatorPrefix_dot (P s : string) :
  spec.is_root P → spec.firstSeparatorPrefix (P +:+ String "." s) = Some P.
Proof.
  unfold spec.is_root. induction P as [|c P IH]; [reflexivity|].
  change (String c P +:+ String "." s) with (String c (P +:+ String "." s)).
  cbn [spec.firstSeparatorPrefix].
  destruct (Ascii.eqb c "."%char); [discriminate|].
  destruct (spec.firstSeparatorPrefix P) eqn:E; [discriminate|].
  intros _. by rewrite IH.
Qed.

Lemma firstSeparatorPrefix_child (P s : string) :
  spec.is_root P → spec.firstSeparatorPrefix (P +:+ "." +:+ s) = Some P.
Proof. apply firstSeparatorPrefix_dot. Qed.

Lemma filter_none {A} (Q : A → Prop) `{!∀ x, Decision (Q x)} (l : list A) :
  (∀ x, x ∈ l → ¬ Q x) → filter Q l = [].
Proof.
  intros Hn. destruct (filter Q l) as [|x k] eqn:E; [reflexivity|].
  assert (Hx : x ∈ filter Q l) by (rewrite E; left).
  apply list_elem_of_filter in Hx as [HQ Hx]. by destruct (Hn x Hx).
Qed.

Lemma root_not_orphan (issues : list sql.IssueRow) (r : sql.IssueRow) :
  spec.is_root (sql.id r) → ¬ spec.orphan issues r.
Proof. unfold spec.is_root. intros E (p & Hp & _). congruence. Qed.

Lemma child_of_present_not_orphan (issues : list sql.IssueRow) (r : sql.IssueRow) P :
  spec.firstSeparatorPrefix (sql.id r) = Some P →
  P ∈ sql.id <$> issues → ¬ spec.orphan issues r.
Proof. intros E Hin (p & Hp & Hn). congruence. Qed.

End DeepNesting.

(** C2, as the code has it.  When a root issue [P] (an ID without separator)
    exists, [QueryOrphanedChildren] reports no row whose prefix before the
    first separator is [P]; in particular the grandchild [P.1.1] is not
    reported, whether or not [P.1] exists.  What it returns is exactly the
    orphans among the rows outside [P]'s subtree: such a row is reported
    when, and only when, its own prefix is missing.  So the result is the
    empty set if and only if no row outside [P]'s subtree is an orphan, as
    when the table holds no rows besides [P] and [P.1.1]. *)
Theorem C2_grandchild_of_existing_root_not_reported (db : sql.DB) (P : string) :
  sql.has_issues_table db →
  sql.link db sql.SELECT_ORPHANS = sql.NoFault →
  spec.is_root P →
  P ∈ sql.ids db →
  ∃ orphans,
    value_of (migrations.QueryOrphanedChildren db) = Ok orphans
    ∧ (∀ o, o ∈ orphans → spec.firstSeparatorPrefix (migrations.ID o) ≠ Some P)
    ∧ (∀ o, o ∈ orphans → migrations.ID o ≠ P +:+ ".1.1")
    ∧ (∀ o, o ∈ orphans ↔
            ∃ r, r ∈ sql.issues db
                 ∧ spec.firstSeparatorPrefix (sql.id r) ≠ Some P
                 ∧ spec.orphan (sql.issues db) r
                 ∧ o = spec.project r)
    ∧ (orphans = [] ↔
         ∀ r, r ∈ sql.issues db → spec.firstSeparatorPrefix (sql.id r) ≠ Some P →
              ¬ spec.orphan (sql.issues db) r)
    ∧ ((∀ r, r ∈ sql.issues db → sql.id r = P ∨ sql.id r = P +:+ ".1.1") →
       orphans = []).
Proof.
  intros Ht Hl Hroot HP. eexists.
  rewrite (QueryOrphanedChildren_served db Ht Hl).
  split; [reflexivity|].
  set (orphans := spec.of_triple <$> sql.select_orphans (sql.issues db)).
  assert (Helem : ∀ o, o ∈ orphans ↔
                       ∃ r, r ∈ sql.issues db ∧ spec.orphan (sql.issues db) r
                            ∧ o = spec.project r).
  { intros o. subst orphans. rewrite select_orphans_perm, list_elem_of_fmap.
    setoid_rewrite list_elem_of_filter. split.
    - intros (r & -> & Ho & Hr). eauto.
    - intros (r & Hr & Ho & ->). eauto. }
  clearbody orphans.
  assert (Hsub : ∀ r, spec.firstSeparatorPrefix (sql.id r) = Some P →
                      ¬ spec.orphan (sql.issues db) r).
  { intros r E. by apply (child_of_present_not_orphan (sql.issues db) r P). }
  assert (Hnone : ∀ o, o ∈ orphans →
                       spec.firstSeparatorPrefix (migrations.ID o) ≠ Some P).
  { intros o (r & Hr & Ho & ->)%Helem E. by apply (Hsub r). }
  assert (Hnil : orphans = [] ↔
                 ∀ r, r ∈ sql.issues db →
                      spec.firstSeparatorPrefix (sql.id r) ≠ Some P →
                      ¬ spec.orphan (sql.issues db) r).
  { split.
    - intros E r Hr _ Ho.
      assert (Hin : spec.project r ∈ orphans) by (apply Helem; eauto).
      rewrite E in Hin. by apply elem_of_nil in Hin.
    - intros Hout. destruct orphans as [|o l]; [reflexivity|].
      assert (Hin : o ∈ o :: l) by left.
      pose proof (Hnone o Hin) as Hne.
      apply Helem in Hin as (r & Hr & Ho & ->). by destruct (Hout r Hr Hne). }
  split; [exact Hnone|]. split; [|split; [|split; [exact Hnil|]]].
  - intros o Ho E. apply (Hnone o Ho). rewrite E.
    by apply (firstSeparatorPrefix_child P "1.1").
  - intros o. rewrite Helem. split.
    + intros (r & Hr & Ho & ->). exists r. split; [done|]. split; [|done].
      intros E. by apply (Hsub r).
    + intros (r & Hr & _ & Ho & ->). eauto.
  - intros Honly. apply Hnil. intros r Hr Hne Ho.
    destruct (Honly r Hr) as [E|E].
    + apply (root_not_orphan (sql.issues db) r); [by rewrite E|done].
    + apply Hne. rewrite E. by apply (firstSeparatorPrefix_child P "1.1").
Qed.

Lemma C2_grandchild_of_existing_root_not_reported_witness :
  sql.has_issues_table observe.deep_nesting_and_root
  ∧ sql.link observe.deep_nesting_and_root sql.SELECT_ORPHANS = sql.NoFault
  ∧ spec.is_root "bd-abc123"
  ∧ "bd-abc123" ∈ sql.ids observe.deep_nesting_and_root
  ∧ "bd-abc123.1.1" ∈ sql.ids observe.deep_nesting_and_root
  ∧ ("bd-abc123.1" ∉ sql.ids observe.deep_nesting_and_root)
  ∧ "bd-other" ∈ sql.ids observe.deep_nesting_and_root
  ∧ value_of (migrations.QueryOrphanedChildren observe.deep_nesting_and_root) = Ok [].
Proof.
  assert (H1 : sql.has_issues_table observe.deep_nesting_and_root)
    by (vm_compute; eauto).
  assert (H2 : sql.link observe.deep_nesting_and_root sql.SELECT_ORPHANS = sql.NoFault)
    by reflexivity.
  assert (H3 : spec.is_root "bd-abc123") by reflexivity.
  assert (H4 : "bd-abc123" ∈ sql.ids observe.deep_nesting_and_root) by compute_done.
  assert (H5 : "bd-abc123.1.1" ∈ sql.ids observe.deep_nesting_and_root) by compute_done.
  assert (H6 : "bd-abc123.1" ∉ sql.ids observe.deep_nesting_and_root) by compute_done.
  assert (H7 : "bd-other" ∈ sql.ids observe.deep_nesting_and_root) by compute_done.
  repeat (split; [assumption|]).
  destruct (C2_grandchild_of_existing_root_not_reported
              observe.deep_nesting_and_root "bd-abc123" H1 H2 H3 H4)
    as (orphans & Hv & _ & _ & _ & Hnil & _).
  rewrite Hv. f_equal. apply Hnil.
  refine (proj1 (Forall_forall
                   (λ r, spec.firstSeparatorPrefix (sql.id r) ≠ Some "bd-abc123" →
                         ¬ spec.orphan (sql.issues observe.deep_nesting_and_root) r)
                   (sql.issues observe.deep_nesting_and_root)) _).
  compute_done.
Defined.

(** C2 as stated fails: with the root [bd-abc123] present, its grandchild
    [bd-abc123.1.1] present and [bd-abc123.1] absent, the query still returns
    a non-empty result when the table holds an unrelated orphan. *)
Lemma C2_counterexample :
  sql.has_issues_table fixtures.deep_nesting_and_stray
  ∧ sql.link fixtures.deep_nesting_and_stray sql.SELECT_ORPHANS = sql.NoFault
  ∧ spec.is_root "bd-abc123"
  ∧ "bd-abc123" ∈ sql.ids fixtures.deep_nesting_and_stray
  ∧ "bd-abc123.1.1" ∈ sql.ids fixtures.deep_nesting_and_stray
  ∧ ("bd-abc123.1" ∉ sql.ids fixtures.deep_nesting_and_stray)
  ∧ (value_of (migrations.QueryOrphanedChildren fixtures.deep_nesting_and_stray)
      = Ok [migrations.mkOrphanInfo "bd-zzz.1" "Stray" "open"])
  ∧ (value_of (migrations.QueryOrphanedChildren fixtures.deep_nesting_and_stray) ≠ Ok []).
Proof.
  split; [vm_compute; eauto|]. split; [reflexivity|]. split; [reflexivity|].
  split; [compute_done|].
  split; [compute_done|].
  split; [compute_done|].
  split; [vm_compute; reflexivity|]. vm_compute. discriminate.
Qed.

(** ** The advisory detection step *)

Section Advisory.

Lemma for_range_log {A} (format : string) (args : A → list Arg)
    (l : list A) (db : sql.DB) :
  for_range l (λ x, log_Printf format (args x)) db =
    (tt, db, (λ x, EvLog format (args x)) <$> l).
Proof.
  induction l as [|x l IH]; [reflexivity|].
  cbn [for_range]. unfold bind. cbn [log_Printf]. by rewrite IH.
Qed.

(** The query sends one [SELECT] and never touches the handle, whatever
    the link does. *)
Lemma QueryOrphanedChildren_reads_only (db : sql.DB) :
  state_of (migrations.QueryOrphanedChildren db) = db
  ∧ trace_of (migrations.QueryOrphanedChildren db) = [EvQuery sql.SELECT_ORPHANS].
Proof.
  unfold migrations.QueryOrphanedChildren, bind, db_Query.
  destruct (sql.link db sql.SELECT_ORPHANS);
    destruct (sql.run_query sql.SELECT_ORPHANS (sql.catalog db)) as [rs|e'];
    cbn [pending failure]; try (split; reflexivity);
    match goal with |- context [migrations.scan_orphans ?l ?a] =>
      destruct (migrations.scan_orphans l a) end; split; reflexivity.
Qed.

Variable tableExists : string → Mdb (result bool).

(** What [DetectOrphanedChildren] does, by the outcome of the two checks. *)
Lemma DetectOrphanedChildren_cases (db : sql.DB) :
  migrations.DetectOrphanedChildren tableExists db =
    let te := tableExists "issues" db in
    match value_of te with
    | Err err => (Some (Errorf "failed to check issues table" err), state_of te, trace_of te)
    | Ok false => (None, state_of te, trace_of te)
    | Ok true =>
        let q := migrations.QueryOrphanedChildren (state_of te) in
        match value_of q with
        | Err err =>
            (Some (Errorf "failed to detect orphaned children" err), state_of q,
             trace_of te ++ trace_of q)
        | Ok orphans =>
            (None, state_of q, trace_of te ++ trace_of q ++ spec.orphan_report orphans)
        end
    end.
Proof.
  unfold migrations.DetectOrphanedChildren, bind.
  destruct (tableExists "issues" db) as [[[[|]|e] db1] t1];
    cbn [value_of state_of trace_of fst snd negb ret]; try by rewrite app_nil_r.
  destruct (migrations.QueryOrphanedChildren db1) as [[[orphans|e] db2] t2];
    cbn [value_of state_of trace_of fst snd ret]; [|by rewrite app_nil_r].
  destruct orphans as [|o orphans]; cbn [length Nat.eqb ret spec.orphan_report].
  - by rewrite !app_nil_r.
  - cbn [log_Printf].
    rewrite for_range_log. cbn [fst snd]. by rewrite app_nil_r.
Qed.

End Advisory.

(** C3. [DetectOrphanedChildren] returns an error exactly when the
    table-existence check fails or, the table being there, the orphan query
    fails.  When the [issues] table is absent it returns nil having done
    nothing beyond the existence check (no orphan query, no log line); when
    the query succeeds it returns nil whatever the number of orphans, which
    only show up as log lines. *)
Theorem C3_detect_errors_only_on_failed_checks
    (tableExists : string → Mdb (result bool)) (db : sql.DB) :
  let te := tableExists "issues" db in
  let q := migrations.QueryOrphanedChildren (state_of te) in
  let d := migrations.DetectOrphanedChildren tableExists db in
  (is_Some (value_of d) ↔
     is_Err (value_of te) = true
     ∨ (value_of te = Ok true ∧ is_Err (value_of q) = true))
  ∧ (value_of te = Ok false → d = (None, state_of te, trace_of te))
  ∧ (∀ orphans, value_of te = Ok true → value_of q = Ok orphans →
       value_of d = None
       ∧ trace_of d = trace_of te ++ trace_of q ++ spec.orphan_report orphans).
Proof.
  intros te q d. subst d. rewrite DetectOrphanedChildren_cases.
  fold te. cbv zeta. fold q.
  destruct (value_of te) as [[|]|e]; [destruct (value_of q) as [orphans|e]|..];
    cbn [value_of trace_of fst snd is_Err].
  - split; [|split]; [|discriminate|].
    + split; [by intros [? ?]|]. intros [?|[_ ?]]; discriminate.
    + intros ? _ [= <-]. split; reflexivity.
  - split; [|split]; [|discriminate|discriminate].
    split; [intros _; by right|eauto].
  - split; [|split]; [|reflexivity|discriminate].
    split; [by intros [? ?]|]. intros [?|[? _]]; discriminate.
  - split; [|split]; [|discriminate|discriminate].
    split; [intros _; by left|eauto].
Qed.

Lemma C3_detect_errors_only_on_failed_checks_witness :
  (value_of (migrations.tableExists "issues" fixtures.no_tables) = Ok false
   ∧ migrations.DetectOrphanedChildren migrations.tableExists fixtures.no_tables =
       (None, fixtures.no_tables, [EvQuery (sql.CATALOG_TABLE "issues")]))
  ∧ (value_of (migrations.tableExists "issues" fixtures.with_orphans) = Ok true
     ∧ value_of (migrations.DetectOrphanedChildren migrations.tableExists
                   fixtures.with_orphans) = None
     ∧ trace_of (migrations.DetectOrphanedChildren migrations.tableExists
                   fixtures.with_orphans) =
         [EvQuery (sql.CATALOG_TABLE "issues"); EvQuery sql.SELECT_ORPHANS]
         ++ spec.orphan_report
              [migrations.mkOrphanInfo "bd-abc123.1" "Orphan Child 1" "open";
               migrations.mkOrphanInfo "bd-abc123.2" "Orphan Child 2" "closed"]).
Proof.
  split.
  - assert (E : value_of (migrations.tableExists "issues" fixtures.no_tables) = Ok false)
      by reflexivity.
    split; [exact E|].
    exact (proj1 (proj2 (C3_detect_errors_only_on_failed_checks
                           migrations.tableExists fixtures.no_tables)) E).
  - assert (E : value_of (migrations.tableExists "issues" fixtures.with_orphans) = Ok true)
      by (vm_compute; reflexivity).
    split; [exact E|].
    exact (proj2 (proj2 (C3_detect_errors_only_on_failed_checks
                           migrations.tableExists fixtures.with_orphans))
             [migrations.mkOrphanInfo "bd-abc123.1" "Orphan Child 1" "open";
              migrations.mkOrphanInfo "bd-abc123.2" "Orphan Child 2" "closed"]
             E (proj1 TestDetectOrphanedChildren_WithOrphans)).
Defined.

(** ** Detection is read-only *)

Section ReadOnly.

(** A computation that leaves the state alone gives, run [n] times in a
    row, [n] times the same answer and the same trace. *)
Lemma run_times_read_only {S E A} (m : M S E A) (s : S) (n : nat) :
  state_of (m s) = s →
  spec.run_times n m s = (replicate n (value_of (m s), trace_of (m s)), s).
Proof.
  intros Hs. induction n as [|n IH]; [reflexivity|].
  cbn [spec.run_times replicate]. rewrite Hs, IH. reflexivity.
Qed.

(** The spec-modelled helper is a pure read. *)
Lemma tableExists_reads_only (name : string) (db : sql.DB) :
  state_of (migrations.tableExists name db) = db.
Proof.
  unfold migrations.tableExists, bind, db_Query.
  destruct (sql.link db (sql.CATALOG_TABLE name));
    destruct (sql.run_query (sql.CATALOG_TABLE name) (sql.catalog db));
    reflexivity.
Qed.

Variable tableExists : string → Mdb (result bool).
Hypothesis tableExists_pure : ∀ name db, state_of (tableExists name db) = db.

Lemma DetectOrphanedChildren_reads_only (db : sql.DB) :
  state_of (migrations.DetectOrphanedChildren tableExists db) = db.
Proof.
  rewrite DetectOrphanedChildren_cases. cbv zeta.
  pose proof (tableExists_pure "issues" db) as Ht.
  pose proof (proj1 (QueryOrphanedChildren_reads_only
                       (state_of (tableExists "issues" db)))) as Hq.
  destruct (value_of (tableExists "issues" db)) as [[|]|e]; cbn [state_of fst snd];
    [|assumption..].
  destruct (value_of (migrations.QueryOrphanedChildren _)); cbn [state_of fst snd];
    congruence.
Qed.

End ReadOnly.

(** C8. Orphan detection is read-only and repeatable: with a
    table-existence helper that only reads (section 4.1), a run of
    [QueryOrphanedChildren] or of [DetectOrphanedChildren] leaves the whole
    database, and so the [issues] table, as it found it, and any number of
    successive runs return the same result and produce the same report. *)
Theorem C8_detection_read_only_and_repeatable
    (tableExists : string → Mdb (result bool)) (db : sql.DB) (n : nat) :
  (∀ name db', state_of (tableExists name db') = db') →
  let q := migrations.QueryOrphanedChildren in
  let d := migrations.DetectOrphanedChildren tableExists in
  state_of (q db) = db
  ∧ state_of (d db) = db
  ∧ sql.issues (state_of (d db)) = sql.issues db
  ∧ spec.run_times n q db = (replicate n (value_of (q db), trace_of (q db)), db)
  ∧ spec.run_times n d db = (replicate n (value_of (d db), trace_of (d db)), db).
Proof.
  intros Hpure q d.
  pose proof (proj1 (QueryOrphanedChildren_reads_only db)) as Hq.
  pose proof (DetectOrphanedChildren_reads_only tableExists Hpure db) as Hd.
  fold d in Hd. fold q in Hq.
  split; [exact Hq|]. split; [exact Hd|]. split; [by rewrite Hd|].
  split; by apply run_times_read_only.
Qed.

Lemma C8_detection_read_only_and_repeatable_witness :
  (∀ name db', state_of (migrations.tableExists name db') = db')
  ∧ state_of (migrations.QueryOrphanedChildren fixtures.one_orphan) = fixtures.one_orphan
  ∧ state_of (migrations.DetectOrphanedChildren migrations.tableExists fixtures.one_orphan)
      = fixtures.one_orphan
  ∧ sql.issues (state_of (migrations.DetectOrphanedChildren migrations.tableExists
                            fixtures.one_orphan)) = sql.issues fixtures.one_orphan
  ∧ spec.run_times 2 migrations.QueryOrphanedChildren fixtures.one_orphan =
      (replicate 2 (value_of (migrations.QueryOrphanedChildren fixtures.one_orphan),
                    trace_of (migrations.QueryOrphanedChildren fixtures.one_orphan)),
       fixtures.one_orphan)
  ∧ spec.run_times 2 (migrations.DetectOrphanedChildren migrations.tableExists)
      fixtures.one_orphan =
      (replicate 2
         (value_of (migrations.DetectOrphanedChildren migrations.tableExists
                      fixtures.one_orphan),
          trace_of (migrations.DetectOrphanedChildren migrations.tableExists
                      fixtures.one_orphan)),
       fixtures.one_orphan).
Proof.
  split; [exact tableExists_reads_only|].
  exact (C8_detection_read_only_and_repeatable migrations.tableExists
           fixtures.one_orphan 2 tableExists_reads_only).
Defined.

(** [TestDetectOrphanedChildren_Idempotent]: two runs, both succeed, both
    print the same report about the one orphan. *)
Example TestDetectOrphanedChildren_Idempotent :
  spec.run_times 2 (migrations.DetectOrphanedChildren migrations.tableExists)
    fixtures.one_orphan =
    (replicate 2
       (None,
        [EvQuery (sql.CATALOG_TABLE "issues"); EvQuery sql.SELECT_ORPHANS]
        ++ spec.orphan_report [migrations.mkOrphanInfo "bd-gone.1" "Orphan" "open"]),
     fixtures.one_orphan).
Proof. vm_compute; reflexivity. Qed.

(** ** The wisp-type column migration *)

Section WispType.

Lemma columnExists_served (db : sql.DB) (table column : string) :
  sql.link db (sql.CATALOG_COLUMN table column) = sql.NoFault →
  migrations.columnExists table column db =
    (Ok (sql.has_column db table column), db, [EvQuery (sql.CATALOG_COLUMN table column)]).
Proof.
  intros Hl. unfold migrations.columnExists, bind, db_Query, sql.has_column.
  rewrite Hl. cbn [sql.run_query].
  destruct (sql.catalog db !! table) as [t|]; [|reflexivity].
  destruct (bool_decide (column ∈ sql.columns t)); reflexivity.
Qed.

(** With the column in place the migration only probes the schema. *)
Lemma MigrateWispTypeColumn_present (db : sql.DB) :
  sql.link db (sql.CATALOG_COLUMN "issues" "wisp_type") = sql.NoFault →
  sql.has_column db "issues" "wisp_type" = true →
  migrations.MigrateWispTypeColumn db =
    (None, db, [EvQuery (sql.CATALOG_COLUMN "issues" "wisp_type")]).
Proof.
  intros Hl Hc. unfold migrations.MigrateWispTypeColumn, bind.
  rewrite (columnExists_served db _ _ Hl), Hc. reflexivity.
Qed.

Lemma has_column_add_column (cat : gmap string sql.Table) l t table column default :
  sql.has_column (sql.mkDB (<[table := sql.add_column column default t]> cat) l)
    table column = true.
Proof.
  unfold sql.has_column. cbn [sql.catalog]. rewrite lookup_insert_eq.
  apply bool_decide_eq_true. unfold sql.columns, sql.add_column. cbn [sql.added_columns].
  rewrite fmap_app. set_solver.
Qed.

(** A successful application leaves the column in place and the link as it
    was. *)
Lemma MigrateWispTypeColumn_success (db : sql.DB) :
  sql.link db (sql.CATALOG_COLUMN "issues" "wisp_type") = sql.NoFault →
  value_of (migrations.MigrateWispTypeColumn db) = None →
  sql.has_column (state_of (migrations.MigrateWispTypeColumn db)) "issues" "wisp_type" = true
  ∧ sql.link (state_of (migrations.MigrateWispTypeColumn db)) = sql.link db.
Proof.
  intros Hl. unfold migrations.MigrateWispTypeColumn, bind.
  rewrite (columnExists_served db _ _ Hl).
  destruct (sql.has_column db "issues" "wisp_type") eqn:Hc;
    cbn [ret value_of state_of fst snd]; [by intros _|].
  unfold db_Exec.
  destruct (sql.link db (sql.ALTER_TABLE_ADD_COLUMN "issues" "wisp_type" ""));
    cbn [sql.run_exec]; try discriminate;
    (destruct (sql.catalog db !! "issues") as [t|]; [|discriminate]);
    (destruct (bool_decide ("wisp_type" ∈ sql.columns t)); [discriminate|]);
    intros _; cbn [value_of state_of fst snd sql.link];
    (split; [apply has_column_add_column|reflexivity]).
Qed.

End WispType.

(** [TestMigrateWispTypeColumn]: the column is absent, the migration adds
    it, and running the migration again succeeds. *)
Example TestMigrateWispTypeColumn :
  let once := migrations.MigrateWispTypeColumn fixtures.openTestDolt in
  let twice := migrations.MigrateWispTypeColumn (state_of once) in
  value_of (migrations.columnExists "issues" "wisp_type" fixtures.openTestDolt) = Ok false
  ∧ value_of once = None
  ∧ value_of (migrations.columnExists "issues" "wisp_type" (state_of once)) = Ok true
  ∧ value_of twice = None.
Proof. repeat split; vm_compute; reflexivity. Qed.

(** C7. The wisp-type column migration is idempotent (over a link that
    serves the column probe): called when [wisp_type] already exists on
    [issues], it returns success having only probed the schema, the database
    unchanged; and after one successful application a second one returns no
    error and leaves the schema state the first one produced. *)
Theorem C7_wisp_type_migration_idempotent (db : sql.DB) :
  sql.link db (sql.CATALOG_COLUMN "issues" "wisp_type") = sql.NoFault →
  (sql.has_column db "issues" "wisp_type" = true →
     migrations.MigrateWispTypeColumn db =
       (None, db, [EvQuery (sql.CATALOG_COLUMN "issues" "wisp_type")]))
  ∧ (value_of (migrations.MigrateWispTypeColumn db) = None →
       let once := state_of (migrations.MigrateWispTypeColumn db) in
       let twice := migrations.MigrateWispTypeColumn once in
       sql.has_column once "issues" "wisp_type" = true
       ∧ value_of twice = None
       ∧ state_of twice = once
       ∧ trace_of twice = [EvQuery (sql.CATALOG_COLUMN "issues" "wisp_type")]).
Proof.
  intros Hl. split; [by apply MigrateWispTypeColumn_present|].
  intros Hok once twice.
  destruct (MigrateWispTypeColumn_success db Hl Hok) as [Hc Hl'].
  fold once in Hc, Hl'. split; [exact Hc|].
  subst twice. rewrite MigrateWispTypeColumn_present; [done| |exact Hc].
  by rewrite Hl'.
Qed.

Lemma C7_wisp_type_migration_idempotent_witness :
  sql.link fixtures.openTestDolt (sql.CATALOG_COLUMN "issues" "wisp_type") = sql.NoFault
  ∧ sql.has_column fixtures.openTestDolt "issues" "wisp_type" = false
  ∧ value_of (migrations.MigrateWispTypeColumn fixtures.openTestDolt) = None
  ∧ let once := state_of (migrations.MigrateWispTypeColumn fixtures.openTestDolt) in
    let twice := migrations.MigrateWispTypeColumn once in
    sql.has_column once "issues" "wisp_type" = true
    ∧ value_of twice = None
    ∧ state_of twice = once
    ∧ trace_of twice = [EvQuery (sql.CATALOG_COLUMN "issues" "wisp_type")].
Proof.
  assert (Hl : sql.link fixtures.openTestDolt (sql.CATALOG_COLUMN "issues" "wisp_type")
               = sql.NoFault) by reflexivity.
  assert (Hok : value_of (migrations.MigrateWispTypeColumn fixtures.openTestDolt) = None)
    by (vm_compute; reflexivity).
  split; [exact Hl|]. split; [vm_compute; reflexivity|]. split; [exact Hok|].
  exact (proj2 (C7_wisp_type_migration_idempotent fixtures.openTestDolt Hl) Hok).
Defined.

(** ** The [sync] command *)

Section SyncRun.

Context {W : Type} `{bd.Env W}.

(** With a store and a metadata directory the run is the commit step, in
    mirror mode the export step, and the push step, one after the other. *)
Lemma syncCmd_Run_trace (w : W) :
  bd.store_nil w = false → bd.FindBeadsDir w ≠ "" →
  trace_of (bd.syncCmd_Run w) =
    spec.commit_events (spec.commit_msg w) (spec.commit_result w)
    ++ (if spec.native w then []
        else spec.export_events (spec.jsonl_path w) (spec.export_result w))
    ++ spec.push_events (spec.remote_result w).1 (spec.remote_result w).2
         (spec.push_result w).
Proof.
  intros Hn Hd.
  unfold spec.push_result, spec.remote_result, spec.before_push, spec.export_result,
    spec.native, spec.after_commit, spec.commit_result, spec.jsonl_path, spec.commit_msg.
  unfold bd.syncCmd_Run, bind, gets. rewrite Hn, (bool_decide_eq_false_2 _ Hd).
  unfold bd.Commit, bd.HasRemote, bd.Push, bd.Export, bd.Fprintf_Stderr, ret.
  unfold spec.commit_events, spec.export_events, spec.push_events.
  destruct (bd.store_Commit (bd.commit_message (bd.getActor w)) w) as [cerr w1].
  cbn [fst snd].
  destruct cerr as [e|]; [destruct (bd.isDoltNothingToCommit e)|];
    cbv beta iota zeta; cbn [negb];
    (destruct (bool_decide (bd.GetSyncMode w1 = bd.SyncModeDoltNative));
     [|destruct (bd.exportToJSONLWithStore
                   (bd.filepath_Join (bd.FindBeadsDir w) "issues.jsonl") w1)
         as [[e1|] w2]; cbv beta iota zeta; cbn [fst snd]]);
    (match goal with |- context [bd.store_HasRemote "origin" ?x] =>
       destruct (bd.store_HasRemote "origin" x) as [[[|] [e'|]] w3] end);
    cbv beta iota zeta; cbn; try reflexivity;
    (match goal with |- context [bd.store_Push ?x] =>
       destruct (bd.store_Push x) as [[e''|] w4] end);
    reflexivity.
Qed.

End SyncRun.

(** Section 8, sync scenario, replayed: the benign commit answer prints
    nothing, the export writes the interchange file, the push is skipped. *)
Example sync_scenario_mirror_no_remote :
  trace_of (bd.syncCmd_Run fixtures.mirror_no_remote) =
    [bd.EvCommit "bd sync (auto-commit) by alice" (Some (errorString "nothing to commit"));
     bd.EvExport ".beads/issues.jsonl" None;
     bd.EvHasRemote "origin" false None].
Proof. vm_compute; reflexivity. Qed.

Example sync_scenario_commit_fails :
  trace_of (bd.syncCmd_Run fixtures.commit_fails) =
    [bd.EvCommit "bd sync (auto-commit) by alice" (Some (errorString "database is read only"));
     bd.EvStderr "Warning: Dolt commit failed: %v\n"
       [ArgErr (errorString "database is read only")];
     bd.EvExport ".beads/issues.jsonl" None;
     bd.EvHasRemote "origin" true None;
     bd.EvPush None;
     bd.EvStderr "Pushed to Dolt git remote\n" []].
Proof. vm_compute; reflexivity. Qed.

(** C4. Invoked with no open store handle ([store == nil]) the command
    is a no-op: it returns without committing, exporting, pushing or
    printing, and leaves the process state as it was. *)
Theorem C4_nil_store_is_noop {W : Type} `{!bd.Env W} (w : W) :
  bd.store_nil w = true →
  bd.syncCmd_Run w = (tt, w, []).
Proof.
  intros Hnil. unfold bd.syncCmd_Run, bind, gets.
  rewrite Hnil. reflexivity.
Qed.

Lemma C4_nil_store_is_noop_witness :
  bd.store_nil fixtures.closed_store = true
  ∧ bd.syncCmd_Run fixtures.closed_store = (tt, fixtures.closed_store, []).
Proof.
  split; [reflexivity|].
  exact (C4_nil_store_is_noop fixtures.closed_store eq_refl).
Defined.

(** C9. With an open store handle but no metadata directory
    ([FindBeadsDir] returns the empty string) the command also does
    nothing at all: no commit, no export, no push, no output; the early
    return precedes the commit step. *)
Theorem C9_no_beads_dir_is_noop {W : Type} `{!bd.Env W} (w : W) :
  bd.store_nil w = false →
  bd.FindBeadsDir w = "" →
  bd.syncCmd_Run w = (tt, w, []).
Proof.
  intros Hopen Hdir. unfold bd.syncCmd_Run, bind, gets.
  rewrite Hopen, Hdir. reflexivity.
Qed.

Lemma C9_no_beads_dir_is_noop_witness :
  bd.store_nil fixtures.no_beads_dir = false
  ∧ bd.FindBeadsDir fixtures.no_beads_dir = ""
  ∧ bd.syncCmd_Run fixtures.no_beads_dir = (tt, fixtures.no_beads_dir, []).
Proof.
  split; [reflexivity|]. split; [reflexivity|].
  exact (C9_no_beads_dir_is_noop fixtures.no_beads_dir eq_refl eq_refl).
Defined.

Section Steps.

Context {W : Type} `{bd.Env W}.

Lemma export_events_no_commit_warning path err :
  Forall (λ x, spec.is_commit_warning x = false) (spec.export_events path err).
Proof. destruct err; repeat constructor. Qed.

Lemma push_events_no_commit_warning b herr perr :
  Forall (λ x, spec.is_commit_warning x = false) (spec.push_events b herr perr).
Proof. destruct herr, b, perr; repeat constructor. Qed.

Lemma commit_events_no_export msg err :
  Forall (λ x, spec.is_export x = false) (spec.commit_events msg err).
Proof.
  unfold spec.commit_events.
  destruct err as [e|]; [destruct (bd.isDoltNothingToCommit e)|]; repeat constructor.
Qed.

Lemma push_events_no_export b herr perr :
  Forall (λ x, spec.is_export x = false) (spec.push_events b herr perr).
Proof. destruct herr, b, perr; repeat constructor. Qed.

Lemma commit_events_no_push msg err :
  Forall (λ x, spec.is_push x = false) (spec.commit_events msg err).
Proof.
  unfold spec.commit_events.
  destruct err as [e|]; [destruct (bd.isDoltNothingToCommit e)|]; repeat constructor.
Qed.

Lemma export_events_no_push path err :
  Forall (λ x, spec.is_push x = false) (spec.export_events path err).
Proof. destruct err; repeat constructor. Qed.

(** The push step stops at the remote check when the check fails or
    reports no remote. *)
Lemma push_events_error b e perr :
  spec.push_events b (Some e) perr = [bd.EvHasRemote "origin" b (Some e)].
Proof. reflexivity. Qed.

Lemma push_events_no_remote herr perr :
  spec.push_events false herr perr = [bd.EvHasRemote "origin" false herr].
Proof. by destruct herr. Qed.

End Steps.

(** C5. In a run that reaches the commit step, a commit error recognised
    by [isDoltNothingToCommit] (like no error at all) prints nothing, and
    any other commit error prints one warning on standard error; in every
    case the run goes on with the very same later steps: in mirror mode the
    export, then the remote check and, with a remote, the push. *)
Theorem C5_commit_errors_warn_and_continue {W : Type} `{!bd.Env W} (w : W) :
  bd.store_nil w = false →
  bd.FindBeadsDir w ≠ "" →
  let later :=
    (if spec.native w then []
     else spec.export_events (spec.jsonl_path w) (spec.export_result w))
    ++ spec.push_events (spec.remote_result w).1 (spec.remote_result w).2
         (spec.push_result w) in
  ∃ warning,
    trace_of (bd.syncCmd_Run w) =
      bd.EvCommit (spec.commit_msg w) (spec.commit_result w) :: warning ++ later
    ∧ (spec.commit_result w = None → warning = [])
    ∧ (∀ e, spec.commit_result w = Some e → bd.isDoltNothingToCommit e = true →
         warning = [])
    ∧ (∀ e, spec.commit_result w = Some e → bd.isDoltNothingToCommit e = false →
         warning = [bd.EvStderr "Warning: Dolt commit failed: %v\n" [ArgErr e]])
    ∧ Forall (λ x, spec.is_commit_warning x = false) later
    ∧ (spec.native w = false →
         bd.EvExport (spec.jsonl_path w) (spec.export_result w) ∈ later)
    ∧ bd.EvHasRemote "origin" (spec.remote_result w).1 (spec.remote_result w).2 ∈ later
    ∧ (spec.remote_result w = (true, None) → bd.EvPush (spec.push_result w) ∈ later).
Proof.
  intros Hn Hd later.
  exists (match spec.commit_result w with
          | Some e =>
              if bd.isDoltNothingToCommit e then []
              else [bd.EvStderr "Warning: Dolt commit failed: %v\n" [ArgErr e]]
          | None => []
          end).
  split; [by rewrite (syncCmd_Run_trace w Hn Hd)|].
  split; [by intros ->|].
  split; [by intros e -> ->|].
  split; [by intros e -> ->|].
  split.
  { apply Forall_app. split; [|apply push_events_no_commit_warning].
    destruct (spec.native w); [constructor|apply export_events_no_commit_warning]. }
  split.
  { intros E. subst later. rewrite E. unfold spec.export_events. left. }
  split.
  { subst later. apply elem_of_app. right. left. }
  intros E. subst later. apply elem_of_app. right.
  unfold spec.push_events. rewrite E. cbn. right. left.
Qed.

Lemma C5_commit_errors_warn_and_continue_witness :
  bd.store_nil fixtures.commit_fails = false
  ∧ bd.FindBeadsDir fixtures.commit_fails ≠ ""
  ∧ ∃ warning,
      trace_of (bd.syncCmd_Run fixtures.commit_fails) =
        bd.EvCommit "bd sync (auto-commit) by alice"
          (Some (errorString "database is read only"))
        :: warning
        ++ [bd.EvExport ".beads/issues.jsonl" None;
            bd.EvHasRemote "origin" true None;
            bd.EvPush None;
            bd.EvStderr "Pushed to Dolt git remote\n" []]
      ∧ warning = [bd.EvStderr "Warning: Dolt commit failed: %v\n"
                     [ArgErr (errorString "database is read only")]].
Proof.
  assert (H1 : bd.store_nil fixtures.commit_fails = false) by reflexivity.
  assert (H2 : bd.FindBeadsDir fixtures.commit_fails ≠ "") by discriminate.
  split; [exact H1|]. split; [exact H2|].
  destruct (C5_commit_errors_warn_and_continue fixtures.commit_fails H1 H2)
    as (warning & Htr & _ & _ & Hw & _).
  exists warning. split; [exact Htr|].
  apply (Hw (errorString "database is read only")); reflexivity.
Defined.

(** C6. In a run that reaches the mode branch, native mode skips the
    export entirely and goes from the commit step straight to the push
    step; any other mode runs the export step between the two, and the push
    step follows it also when the export failed (which only prints a
    warning).  In both modes the remote [origin] is checked and, when it is
    there, pushed to. *)
Theorem C6_export_only_in_mirror_mode {W : Type} `{!bd.Env W} (w : W) :
  bd.store_nil w = false →
  bd.FindBeadsDir w ≠ "" →
  let commit := spec.commit_events (spec.commit_msg w) (spec.commit_result w) in
  let push := spec.push_events (spec.remote_result w).1 (spec.remote_result w).2
                (spec.push_result w) in
  let run := trace_of (bd.syncCmd_Run w) in
  (spec.native w = true →
     run = commit ++ push ∧ Forall (λ x, spec.is_export x = false) run)
  ∧ (spec.native w = false → spec.export_result w = None →
       run = commit ++ [bd.EvExport (spec.jsonl_path w) None] ++ push)
  ∧ (∀ e, spec.native w = false → spec.export_result w = Some e →
       run = commit
             ++ [bd.EvExport (spec.jsonl_path w) (Some e);
                 bd.EvStderr "Warning: export failed: %v\n" [ArgErr e]]
             ++ push)
  ∧ bd.EvHasRemote "origin" (spec.remote_result w).1 (spec.remote_result w).2 ∈ run
  ∧ (spec.remote_result w = (true, None) → bd.EvPush (spec.push_result w) ∈ run).
Proof.
  intros Hn Hd commit push run.
  assert (Hrun : run = commit
                       ++ (if spec.native w then []
                           else spec.export_events (spec.jsonl_path w) (spec.export_result w))
                       ++ push) by apply (syncCmd_Run_trace w Hn Hd).
  split; [|split; [|split; [|split]]].
  - intros E. rewrite E in Hrun. split; [exact Hrun|].
    rewrite Hrun. apply Forall_app.
    split; [apply commit_events_no_export|apply push_events_no_export].
  - intros E Ee. by rewrite Hrun, E, Ee.
  - intros e E Ee. by rewrite Hrun, E, Ee.
  - rewrite Hrun, !elem_of_app. right. right. left.
  - intros E. rewrite Hrun, !elem_of_app. right. right.
    subst push. unfold spec.push_events. rewrite E. cbn. right. left.
Qed.

Lemma C6_export_only_in_mirror_mode_witness :
  bd.store_nil fixtures.export_fails = false
  ∧ bd.FindBeadsDir fixtures.export_fails ≠ ""
  ∧ spec.native fixtures.export_fails = false
  ∧ spec.export_result fixtures.export_fails = Some (errorString "permission denied")
  ∧ trace_of (bd.syncCmd_Run fixtures.export_fails) =
      [bd.EvCommit "bd sync (auto-commit) by alice" None]
      ++ [bd.EvExport ".beads/issues.jsonl" (Some (errorString "permission denied"));
          bd.EvStderr "Warning: export failed: %v\n"
            [ArgErr (errorString "permission denied")]]
      ++ [bd.EvHasRemote "origin" true None;
          bd.EvPush None;
          bd.EvStderr "Pushed to Dolt git remote\n" []].
Proof.
  assert (H1 : bd.store_nil fixtures.export_fails = false) by reflexivity.
  assert (H2 : bd.FindBeadsDir fixtures.export_fails ≠ "") by discriminate.
  assert (H3 : spec.native fixtures.export_fails = false) by reflexivity.
  assert (H4 : spec.export_result fixtures.export_fails
               = Some (errorString "permission denied")) by reflexivity.
  repeat (split; [assumption|]).
  exact (proj1 (proj2 (proj2 (C6_export_only_in_mirror_mode fixtures.export_fails H1 H2)))
           (errorString "permission denied") H3 H4).
Defined.

Example sync_scenario_native_with_remote :
  trace_of (bd.syncCmd_Run fixtures.native_with_remote) =
    [bd.EvCommit "bd sync (auto-commit) by alice" None;
     bd.EvHasRemote "origin" true None;
     bd.EvPush None;
     bd.EvStderr "Pushed to Dolt git remote\n" []].
Proof. vm_compute; reflexivity. Qed.

(** C10. When the remote check of a run returns an error, the run ends
    with that check: no push is attempted and nothing is printed about it,
    whatever the reported flag and whatever the mode.  The events up to
    the check, and so everything written to standard error, are the same as
    when the check reports, without error, that there is no remote. *)
Theorem C10_failed_remote_check_skips_push {W : Type} `{!bd.Env W} (w : W) :
  bd.store_nil w = false →
  bd.FindBeadsDir w ≠ "" →
  let before :=
    spec.commit_events (spec.commit_msg w) (spec.commit_result w)
    ++ (if spec.native w then []
        else spec.export_events (spec.jsonl_path w) (spec.export_result w)) in
  let run := trace_of (bd.syncCmd_Run w) in
  (∀ b e, spec.remote_result w = (b, Some e) →
     run = before ++ [bd.EvHasRemote "origin" b (Some e)]
     ∧ Forall (λ x, spec.is_push x = false) run
     ∧ List.filter spec.is_stderr run = List.filter spec.is_stderr before)
  ∧ (spec.remote_result w = (false, None) →
     run = before ++ [bd.EvHasRemote "origin" false None]
     ∧ Forall (λ x, spec.is_push x = false) run
     ∧ List.filter spec.is_stderr run = List.filter spec.is_stderr before).
Proof.
  intros Hn Hd before run.
  assert (Hrun : run = before ++ spec.push_events (spec.remote_result w).1
                                   (spec.remote_result w).2 (spec.push_result w)).
  { subst run before. rewrite (syncCmd_Run_trace w Hn Hd). by rewrite app_assoc. }
  assert (Hbefore : Forall (λ x, spec.is_push x = false) before).
  { apply Forall_app. split; [apply commit_events_no_push|].
    destruct (spec.native w); [constructor|apply export_events_no_push]. }
  split.
  - intros b e E. rewrite E in Hrun. cbn [fst snd] in Hrun.
    rewrite push_events_error in Hrun. rewrite Hrun.
    split; [reflexivity|]. split.
    + apply Forall_app. split; [exact Hbefore|]. repeat constructor.
    + rewrite List.filter_app. cbn [List.filter spec.is_stderr]. by rewrite app_nil_r.
  - intros E. rewrite E in Hrun. cbn [fst snd] in Hrun.
    rewrite push_events_no_remote in Hrun. rewrite Hrun.
    split; [reflexivity|]. split.
    + apply Forall_app. split; [exact Hbefore|]. repeat constructor.
    + rewrite List.filter_app. cbn [List.filter spec.is_stderr]. by rewrite app_nil_r.
Qed.

Lemma C10_failed_remote_check_skips_push_witness :
  bd.store_nil fixtures.remote_check_fails = false
  ∧ bd.FindBeadsDir fixtures.remote_check_fails ≠ ""
  ∧ spec.remote_result fixtures.remote_check_fails
      = (true, Some (errorString "connection refused"))
  ∧ trace_of (bd.syncCmd_Run fixtures.remote_check_fails) =
      [bd.EvCommit "bd sync (auto-commit) by alice" None]
      ++ [bd.EvHasRemote "origin" true (Some (errorString "connection refused"))]
  ∧ Forall (λ x, spec.is_push x = false)
      (trace_of (bd.syncCmd_Run fixtures.remote_check_fails))
  ∧ List.filter spec.is_stderr (trace_of (bd.syncCmd_Run fixtures.remote_check_fails))
      = List.filter spec.is_stderr [bd.EvCommit "bd sync (auto-commit) by alice" None].
Proof.
  assert (H1 : bd.store_nil fixtures.remote_check_fails = false) by reflexivity.
  assert (H2 : bd.FindBeadsDir fixtures.remote_check_fails ≠ "") by discriminate.
  assert (H3 : spec.remote_result fixtures.remote_check_fails
               = (true, Some (errorString "connection refused"))) by reflexivity.
  repeat (split; [assumption|]).
  exact (proj1 (C10_failed_remote_check_skips_push fixtures.remote_check_fails H1 H2)
           true (errorString "connection refused") H3).
Defined.

(** * Further properties *)

(** ** How the orphan query fails *)

Section QueryOutcome.

(** The result of [QueryOrphanedChildren], by what the link does with the
    [SELECT] and whether the table is there. *)
Lemma QueryOrphanedChildren_outcome (db : sql.DB) :
  value_of (migrations.QueryOrphanedChildren db) =
    match sql.catalog db !! "issues", sql.link db sql.SELECT_ORPHANS with
    | _, sql.QueryFault e => Err (Errorf "orphan query failed" e)
    | None, _ => Err (Errorf "orphan query failed" (errorString "table not found: issues"))
    | Some t, sql.NoFault => Ok (spec.of_triple <$> sql.select_orphans (sql.rows t))
    | Some t, sql.IterFault n e => Err (Errorf "orphan query iteration failed" e)
    end.
Proof.
  unfold migrations.QueryOrphanedChildren, bind, db_Query.
  destruct (sql.link db sql.SELECT_ORPHANS) as [|e|n e]; cbn [sql.run_query];
    destruct (sql.catalog db !! "issues") as [t|]; cbn [pending failure];
    rewrite <- ?fmap_take, ?scan_orphans_raw; reflexivity.
Qed.

Lemma errors_Is_refl (e : error) : errors.Is e e = true.
Proof. destruct e; cbn [errors.Is]; by rewrite bool_decide_eq_true_2. Qed.

Lemma errors_Is_wrap (context : string) (e target : error) :
  errors.Is e target = true → errors.Is (wrapError context e) target = true.
Proof. intros E. cbn [errors.Is]. rewrite E. apply orb_true_r. Qed.

End QueryOutcome.

(** X1.  A successful return of [QueryOrphanedChildren] is never a truncated
    list: it happens only when the link served the whole query on an
    existing table, and then carries every orphan, in ascending order. *)
Theorem query_success_is_complete (db : sql.DB) (l : list migrations.OrphanInfo) :
  value_of (migrations.QueryOrphanedChildren db) = Ok l →
  sql.link db sql.SELECT_ORPHANS = sql.NoFault
  ∧ sql.has_issues_table db
  ∧ l ≡ₚ spec.project <$> filter (spec.orphan (sql.issues db)) (sql.issues db)
  ∧ StronglySorted spec.ascending l.
Proof.
  rewrite QueryOrphanedChildren_outcome. unfold sql.has_issues_table, sql.issues.
  destruct (sql.catalog db !! "issues") as [t|],
    (sql.link db sql.SELECT_ORPHANS) as [|e|n e]; try discriminate.
  intros [= <-]. cbn [from_option].
  split; [reflexivity|]. split; [by eexists|].
  split; [apply select_orphans_perm|apply select_orphans_sorted].
Qed.

Lemma query_success_is_complete_witness :
  value_of (migrations.QueryOrphanedChildren fixtures.with_orphans) =
    Ok [migrations.mkOrphanInfo "bd-abc123.1" "Orphan Child 1" "open";
        migrations.mkOrphanInfo "bd-abc123.2" "Orphan Child 2" "closed"]
  ∧ sql.link fixtures.with_orphans sql.SELECT_ORPHANS = sql.NoFault
  ∧ sql.has_issues_table fixtures.with_orphans.
Proof.
  assert (H : value_of (migrations.QueryOrphanedChildren fixtures.with_orphans) =
              Ok [migrations.mkOrphanInfo "bd-abc123.1" "Orphan Child 1" "open";
                  migrations.mkOrphanInfo "bd-abc123.2" "Orphan Child 2" "closed"])
    by (vm_compute; reflexivity).
  split; [exact H|].
  destruct (query_success_is_complete fixtures.with_orphans _ H) as (Hl & Ht & _).
  split; [exact Hl|exact Ht].
Defined.

(** X2.  Every error of [QueryOrphanedChildren] is a wrapped one of two kinds:
    "orphan query failed" around the error of a refused query (or of a
    missing table), or "orphan query iteration failed" around the error the
    cursor broke off with, however many rows it had delivered; the rows
    read so far are dropped.  The scan of a row never fails for this
    query. *)
Theorem query_errors_classified (db : sql.DB) (err : error) :
  value_of (migrations.QueryOrphanedChildren db) = Err err →
  (∃ cause, err = wrapError "orphan query failed" cause
            ∧ (sql.link db sql.SELECT_ORPHANS = sql.QueryFault cause
               ∨ ¬ sql.has_issues_table db))
  ∨ (∃ n cause, err = wrapError "orphan query iteration failed" cause
                ∧ sql.link db sql.SELECT_ORPHANS = sql.IterFault n cause
                ∧ sql.has_issues_table db).
Proof.
  rewrite QueryOrphanedChildren_outcome. unfold sql.has_issues_table.
  destruct (sql.catalog db !! "issues") as [t|] eqn:Et,
    (sql.link db sql.SELECT_ORPHANS) as [|e|n e]; intros [= <-].
  - left. eexists. split; [reflexivity|by left].
  - right. exists n, e. split; [reflexivity|]. split; [reflexivity|by eexists].
  - left. eexists. split; [reflexivity|]. right. by intros [? ?].
  - left. eexists. split; [reflexivity|by left].
  - left. eexists. split; [reflexivity|]. right. by intros [? ?].
Qed.

Lemma query_errors_classified_witness :
  value_of (migrations.QueryOrphanedChildren observe.broken_orphans)
    = Err (wrapError "orphan query iteration failed" (errorString "connection reset"))
  ∧ ((∃ cause,
         wrapError "orphan query iteration failed" (errorString "connection reset")
           = wrapError "orphan query failed" cause
         ∧ (sql.link observe.broken_orphans sql.SELECT_ORPHANS = sql.QueryFault cause
            ∨ ¬ sql.has_issues_table observe.broken_orphans))
     ∨ (∃ n cause,
           wrapError "orphan query iteration failed" (errorString "connection reset")
             = wrapError "orphan query iteration failed" cause
           ∧ sql.link observe.broken_orphans sql.SELECT_ORPHANS = sql.IterFault n cause
           ∧ sql.has_issues_table observe.broken_orphans)).
Proof.
  assert (H : value_of (migrations.QueryOrphanedChildren observe.broken_orphans)
              = Err (wrapError "orphan query iteration failed"
                       (errorString "connection reset")))
    by (vm_compute; reflexivity).
  split; [exact H|]. exact (query_errors_classified _ _ H).
Defined.

(** X3.  A refused orphan query surfaces from [DetectOrphanedChildren] as the
    driver's error under two [%w] layers, so [errors.Is] still finds it;
    nothing is logged on the way. *)
Theorem detect_keeps_cause_of_refused_query
    (tableExists : string → Mdb (result bool)) (db : sql.DB) (cause : error) :
  value_of (tableExists "issues" db) = Ok true →
  sql.link (state_of (tableExists "issues" db)) sql.SELECT_ORPHANS = sql.QueryFault cause →
  let d := migrations.DetectOrphanedChildren tableExists db in
  value_of d = Some (wrapError "failed to detect orphaned children"
                       (wrapError "orphan query failed" cause))
  ∧ (∀ err, value_of d = Some err → errors.Is err cause = true)
  ∧ trace_of d = trace_of (tableExists "issues" db) ++ [EvQuery sql.SELECT_ORPHANS].
Proof.
  intros Hte Hl d. subst d. rewrite DetectOrphanedChildren_cases. cbv zeta.
  rewrite Hte.
  pose proof (QueryOrphanedChildren_outcome (state_of (tableExists "issues" db))) as Hq.
  rewrite Hl in Hq.
  assert (Hq' : value_of (migrations.QueryOrphanedChildren
                            (state_of (tableExists "issues" db)))
                = Err (Errorf "orphan query failed" cause))
    by (rewrite Hq; by destruct (sql.catalog _ !! "issues")).
  rewrite Hq'. cbn [value_of trace_of fst snd].
  split; [reflexivity|]. split.
  - intros err [= <-]. unfold Errorf. do 2 apply errors_Is_wrap. apply errors_Is_refl.
  - by rewrite (proj2 (QueryOrphanedChildren_reads_only _)).
Qed.

Lemma detect_keeps_cause_of_refused_query_witness :
  value_of (migrations.tableExists "issues" observe.refused_orphans) = Ok true
  ∧ sql.link (state_of (migrations.tableExists "issues" observe.refused_orphans))
      sql.SELECT_ORPHANS = sql.QueryFault (errorString "server gone")
  ∧ value_of (migrations.DetectOrphanedChildren migrations.tableExists
                observe.refused_orphans)
      = Some (wrapError "failed to detect orphaned children"
                (wrapError "orphan query failed" (errorString "server gone"))).
Proof.
  assert (H1 : value_of (migrations.tableExists "issues" observe.refused_orphans) = Ok true)
    by (vm_compute; reflexivity).
  assert (H2 : sql.link (state_of (migrations.tableExists "issues" observe.refused_orphans))
                 sql.SELECT_ORPHANS = sql.QueryFault (errorString "server gone"))
    by reflexivity.
  split; [exact H1|]. split; [exact H2|].
  exact (proj1 (detect_keeps_cause_of_refused_query migrations.tableExists
                  observe.refused_orphans (errorString "server gone") H1 H2)).
Defined.

(** ** Which rows the orphan query reports *)

Section Reported.

Lemma select_orphans_elem (issues : list sql.IssueRow) (o : migrations.OrphanInfo) :
  o ∈ spec.of_triple <$> sql.select_orphans issues ↔
  ∃ r, r ∈ issues ∧ spec.orphan issues r ∧ o = spec.project r.
Proof.
  rewrite select_orphans_perm, list_elem_of_fmap.
  setoid_rewrite list_elem_of_filter. split.
  - intros (r & -> & Ho & Hr). eauto.
  - intros (r & Hr & Ho & ->). eauto.
Qed.

Lemma select_orphans_nil (issues : list sql.IssueRow) :
  spec.of_triple <$> sql.select_orphans issues = [] ↔
  ∀ r, r ∈ issues → ¬ spec.orphan issues r.
Proof.
  split.
  - intros E r Hr Ho.
    assert (Hin : spec.project r ∈ spec.of_triple <$> sql.select_orphans issues)
      by (apply select_orphans_elem; eauto).
    rewrite E in Hin. by apply elem_of_nil in Hin.
  - intros Hn. apply Permutation_nil_r. rewrite select_orphans_perm.
    by rewrite (filter_none (spec.orphan issues) issues Hn).
Qed.

Lemma strictly_sorted (l : list migrations.OrphanInfo) :
  StronglySorted spec.ascending l → NoDup (migrations.ID <$> l) →
  StronglySorted observe.strictly_ascending l.
Proof.
  induction 1 as [|o l Hl IH Ho]; csimpl; [constructor|].
  intros [Hnin Hnd]%NoDup_cons. constructor; [by apply IH|].
  apply Forall_forall. intros o' Ho'. split.
  - by apply (proj1 (Forall_forall _ _) Ho).
  - intros E. apply Hnin. rewrite E. by apply list_elem_of_fmap_2.
Qed.

(** Orphans before and after a row is appended whose ID [P] is a root and
    was not there. *)
Lemma orphan_after_insert (issues : list sql.IssueRow) (new r : sql.IssueRow) :
  spec.is_root (sql.id new) → r ∈ issues ++ [new] →
  spec.orphan (issues ++ [new]) r ↔
  r ∈ issues ∧ spec.orphan issues r
  ∧ spec.firstSeparatorPrefix (sql.id r) ≠ Some (sql.id new).
Proof.
  intros Hroot Hr. unfold spec.orphan. rewrite fmap_app. csimpl. split.
  - intros (p & Hp & Hn). rewrite not_elem_of_app in Hn. destruct Hn as [Hn Hnew].
    apply elem_of_app in Hr as [Hr|Hr%list_elem_of_singleton].
    + split; [done|]. split; [eauto|]. rewrite Hp. intros [= ->]. apply Hnew. left.
    + subst r. unfold spec.is_root in Hroot. congruence.
  - intros (_ & (p & Hp & Hn) & Hne). exists p. split; [done|].
    rewrite not_elem_of_app. split; [done|].
    intros ->%list_elem_of_singleton. congruence.
Qed.

End Reported.

(** X4.  The result of [QueryOrphanedChildren] is empty exactly when every row
    whose ID holds a separator has its first-separator prefix among the
    IDs of the table; so it is empty for a table without rows and for a
    table of top-level issues only. *)
Theorem query_empty_iff_every_prefix_present (db : sql.DB) :
  sql.has_issues_table db →
  sql.link db sql.SELECT_ORPHANS = sql.NoFault →
  (value_of (migrations.QueryOrphanedChildren db) = Ok [] ↔
     ∀ r p, r ∈ sql.issues db → spec.firstSeparatorPrefix (sql.id r) = Some p →
            p ∈ sql.ids db)
  ∧ ((∀ r, r ∈ sql.issues db → spec.is_root (sql.id r)) →
     value_of (migrations.QueryOrphanedChildren db) = Ok []).
Proof.
  intros Ht Hl. rewrite (QueryOrphanedChildren_served db Ht Hl). cbn [value_of fst].
  assert (Hiff : Ok (spec.of_triple <$> sql.select_orphans (sql.issues db)) = Ok [] ↔
                 ∀ r p, r ∈ sql.issues db →
                        spec.firstSeparatorPrefix (sql.id r) = Some p → p ∈ sql.ids db).
  { split.
    - intros [= E] r p Hr Hp.
      destruct (decide (p ∈ sql.ids db)) as [|Hn]; [done|].
      destruct (proj1 (select_orphans_nil _) E r Hr). exists p. by split.
    - intros Hall. f_equal. apply select_orphans_nil.
      intros r Hr (p & Hp & Hn). apply Hn. by apply (Hall r p). }
  split; [exact Hiff|].
  intros Hroots. apply Hiff. intros r p Hr Hp.
  specialize (Hroots r Hr). unfold spec.is_root in Hroots. congruence.
Qed.

Lemma query_empty_iff_every_prefix_present_witness :
  sql.has_issues_table fixtures.top_level_only
  ∧ sql.link fixtures.top_level_only sql.SELECT_ORPHANS = sql.NoFault
  ∧ ((∀ r, r ∈ sql.issues fixtures.top_level_only → spec.is_root (sql.id r)) →
     value_of (migrations.QueryOrphanedChildren fixtures.top_level_only) = Ok []).
Proof.
  assert (H1 : sql.has_issues_table fixtures.top_level_only) by (vm_compute; eauto).
  assert (H2 : sql.link fixtures.top_level_only sql.SELECT_ORPHANS = sql.NoFault)
    by reflexivity.
  split; [exact H1|]. split; [exact H2|].
  exact (proj2 (query_empty_iff_every_prefix_present fixtures.top_level_only H1 H2)).
Defined.

(** X5.  When a root [P] is missing, every row whose ID starts with [P.] is
    reported, at whatever depth and whether or not its own direct parent
    exists: only the prefix before the first separator is looked up. *)
Theorem descendants_of_missing_root_reported
    (db : sql.DB) (P s : string) (r : sql.IssueRow) :
  sql.has_issues_table db →
  sql.link db sql.SELECT_ORPHANS = sql.NoFault →
  spec.is_root P →
  P ∉ sql.ids db →
  r ∈ sql.issues db →
  sql.id r = P +:+ "." +:+ s →
  ∃ orphans,
    value_of (migrations.QueryOrphanedChildren db) = Ok orphans
    ∧ spec.project r ∈ orphans.
Proof.
  intros Ht Hl Hroot HP Hr Hid. eexists.
  rewrite (QueryOrphanedChildren_served db Ht Hl). split; [reflexivity|].
  apply select_orphans_elem. exists r. split; [done|]. split; [|done].
  exists P. split; [|exact HP]. rewrite Hid. by apply firstSeparatorPrefix_child.
Qed.

Lemma descendants_of_missing_root_reported_witness :
  sql.has_issues_table observe.missing_root
  ∧ sql.link observe.missing_root sql.SELECT_ORPHANS = sql.NoFault
  ∧ spec.is_root "bd-mid"
  ∧ ("bd-mid" ∉ sql.ids observe.missing_root)
  ∧ "bd-mid.1" ∈ sql.ids observe.missing_root
  ∧ ∃ orphans,
      value_of (migrations.QueryOrphanedChildren observe.missing_root) = Ok orphans
      ∧ migrations.mkOrphanInfo "bd-mid.1.1" "Grandchild" "open" ∈ orphans.
Proof.
  assert (H1 : sql.has_issues_table observe.missing_root) by (vm_compute; eauto).
  assert (H2 : sql.link observe.missing_root sql.SELECT_ORPHANS = sql.NoFault)
    by reflexivity.
  assert (H3 : spec.is_root "bd-mid") by reflexivity.
  assert (H4 : "bd-mid" ∉ sql.ids observe.missing_root) by compute_done.
  assert (H5 : "bd-mid.1" ∈ sql.ids observe.missing_root) by compute_done.
  assert (H6 : sql.mkIssueRow "bd-mid.1.1" "Grandchild" "open" false false ∅
               ∈ sql.issues observe.missing_root)
    by (vm_compute; right; left).
  repeat (split; [assumption|]).
  exact (descendants_of_missing_root_reported observe.missing_root "bd-mid" "1.1"
           (sql.mkIssueRow "bd-mid.1.1" "Grandchild" "open" false false ∅)
           H1 H2 H3 H4 H6 eq_refl).
Defined.

(** X6.  With IDs unique, as the primary key makes them, no ID is reported twice
    and the reported IDs are strictly ascending. *)
Theorem reported_ids_strictly_ascending (db : sql.DB) :
  sql.has_issues_table db →
  sql.link db sql.SELECT_ORPHANS = sql.NoFault →
  NoDup (sql.ids db) →
  ∃ orphans,
    value_of (migrations.QueryOrphanedChildren db) = Ok orphans
    ∧ NoDup (migrations.ID <$> orphans)
    ∧ StronglySorted observe.strictly_ascending orphans
    ∧ (length orphans ≤ length (sql.issues db))%nat.
Proof.
  intros Ht Hl Hkey. eexists.
  rewrite (QueryOrphanedChildren_served db Ht Hl). split; [reflexivity|].
  assert (Hnd : NoDup (migrations.ID <$> (spec.of_triple <$>
                         sql.select_orphans (sql.issues db)))).
  { rewrite select_orphans_perm, <- list_fmap_compose.
    apply (sublist_NoDup _ (sql.ids db)); [exact Hkey|].
    unfold sql.ids. apply fmap_sublist, sublist_filter. }
  split; [exact Hnd|]. split.
  - apply strictly_sorted; [apply select_orphans_sorted|exact Hnd].
  - rewrite select_orphans_perm, length_fmap. apply length_filter.
Qed.

Lemma reported_ids_strictly_ascending_witness :
  sql.has_issues_table fixtures.with_orphans
  ∧ sql.link fixtures.with_orphans sql.SELECT_ORPHANS = sql.NoFault
  ∧ NoDup (sql.ids fixtures.with_orphans)
  ∧ ∃ orphans,
      value_of (migrations.QueryOrphanedChildren fixtures.with_orphans) = Ok orphans
      ∧ NoDup (migrations.ID <$> orphans)
      ∧ StronglySorted observe.strictly_ascending orphans
      ∧ (length orphans ≤ length (sql.issues fixtures.with_orphans))%nat.
Proof.
  assert (H1 : sql.has_issues_table fixtures.with_orphans) by (vm_compute; eauto).
  assert (H2 : sql.link fixtures.with_orphans sql.SELECT_ORPHANS = sql.NoFault)
    by reflexivity.
  assert (H3 : NoDup (sql.ids fixtures.with_orphans)) by compute_done.
  repeat (split; [assumption|]).
  exact (reported_ids_strictly_ascending fixtures.with_orphans H1 H2 H3).
Defined.

(** ** Repairing by insertion *)

Section InsertParent.

Lemma exec_insert_served (db : sql.DB) (i t s : string) :
  sql.has_issues_table db →
  sql.link db (sql.INSERT_INTO_ISSUES i t s) = sql.NoFault →
  i ∉ sql.ids db →
  ∃ new,
    sql.id new = i
    ∧ value_of (db_Exec (sql.INSERT_INTO_ISSUES i t s) db) = None
    ∧ sql.issues (state_of (db_Exec (sql.INSERT_INTO_ISSUES i t s) db))
        = sql.issues db ++ [new]
    ∧ sql.link (state_of (db_Exec (sql.INSERT_INTO_ISSUES i t s) db)) = sql.link db.
Proof.
  unfold sql.has_issues_table, sql.ids, sql.issues, db_Exec.
  intros [tb Htb] Hl Hi. rewrite Hl. cbn [sql.run_exec]. rewrite Htb in *.
  cbn [from_option] in Hi. rewrite (bool_decide_eq_false_2 _ Hi).
  cbn [value_of state_of fst snd sql.catalog sql.link].
  rewrite lookup_insert_eq. cbn [from_option sql.insert_issue sql.rows].
  eexists. split; [|split; [reflexivity|split; reflexivity]]. reflexivity.
Qed.

End InsertParent.

(** X7.  Inserting the missing root [P] repairs exactly its descendants: the
    query afterwards reports the rows it reported before, except those
    whose prefix before the first separator is [P]. *)
Theorem inserting_root_clears_its_orphans (db : sql.DB) (P t s : string) :
  sql.has_issues_table db →
  sql.link db sql.SELECT_ORPHANS = sql.NoFault →
  sql.link db (sql.INSERT_INTO_ISSUES P t s) = sql.NoFault →
  spec.is_root P →
  P ∉ sql.ids db →
  ∃ before after,
    value_of (migrations.QueryOrphanedChildren db) = Ok before
    ∧ value_of (db_Exec (sql.INSERT_INTO_ISSUES P t s) db) = None
    ∧ value_of (migrations.QueryOrphanedChildren
                  (state_of (db_Exec (sql.INSERT_INTO_ISSUES P t s) db))) = Ok after
    ∧ ∀ o, o ∈ after ↔
           o ∈ before ∧ spec.firstSeparatorPrefix (migrations.ID o) ≠ Some P.
Proof.
  intros Ht Hl Hli Hroot HP.
  destruct (exec_insert_served db P t s Ht Hli HP) as (new & Hid & Hok & Hrows & Hlink).
  set (db' := state_of (db_Exec (sql.INSERT_INTO_ISSUES P t s) db)) in *.
  assert (Ht' : sql.has_issues_table db').
  { unfold sql.has_issues_table. unfold sql.issues in Hrows at 1.
    destruct (sql.catalog db' !! "issues"); [by eexists|].
    cbn [from_option] in Hrows. destruct (sql.issues db); discriminate. }
  assert (Hl' : sql.link db' sql.SELECT_ORPHANS = sql.NoFault) by (by rewrite Hlink).
  do 2 eexists. rewrite (QueryOrphanedChildren_served db Ht Hl).
  rewrite (QueryOrphanedChildren_served db' Ht' Hl').
  split; [reflexivity|]. split; [exact Hok|]. split; [reflexivity|].
  intros o. rewrite !select_orphans_elem, Hrows. subst P. split.
  - intros (r & Hr & Ho & ->).
    apply (orphan_after_insert _ new r Hroot Hr) in Ho as (Hr' & Ho & Hne).
    split; [eauto|exact Hne].
  - intros [(r & Hr & Ho & ->) Hne]. exists r.
    assert (Hr' : r ∈ sql.issues db ++ [new]) by (apply elem_of_app; by left).
    split; [exact Hr'|]. split; [|reflexivity].
    by apply (orphan_after_insert _ new r Hroot Hr').
Qed.

Lemma inserting_root_clears_its_orphans_witness :
  sql.has_issues_table fixtures.with_orphans
  ∧ sql.link fixtures.with_orphans sql.SELECT_ORPHANS = sql.NoFault
  ∧ sql.link fixtures.with_orphans
      (sql.INSERT_INTO_ISSUES "bd-abc123" "Parent" "open") = sql.NoFault
  ∧ spec.is_root "bd-abc123"
  ∧ ("bd-abc123" ∉ sql.ids fixtures.with_orphans)
  ∧ ∃ before after,
      value_of (migrations.QueryOrphanedChildren fixtures.with_orphans) = Ok before
      ∧ value_of (db_Exec (sql.INSERT_INTO_ISSUES "bd-abc123" "Parent" "open")
                    fixtures.with_orphans) = None
      ∧ value_of (migrations.QueryOrphanedChildren
                    (state_of (db_Exec (sql.INSERT_INTO_ISSUES "bd-abc123" "Parent" "open")
                                 fixtures.with_orphans))) = Ok after
      ∧ ∀ o, o ∈ after ↔
             o ∈ before
             ∧ spec.firstSeparatorPrefix (migrations.ID o) ≠ Some "bd-abc123".
Proof.
  assert (H1 : sql.has_issues_table fixtures.with_orphans) by (vm_compute; eauto).
  assert (H2 : sql.link fixtures.with_orphans sql.SELECT_ORPHANS = sql.NoFault)
    by reflexivity.
  assert (H3 : sql.link fixtures.with_orphans
                 (sql.INSERT_INTO_ISSUES "bd-abc123" "Parent" "open") = sql.NoFault)
    by reflexivity.
  assert (H4 : spec.is_root "bd-abc123") by reflexivity.
  assert (H5 : "bd-abc123" ∉ sql.ids fixtures.with_orphans) by compute_done.
  repeat (split; [assumption|]).
  exact (inserting_root_clears_its_orphans fixtures.with_orphans
           "bd-abc123" "Parent" "open" H1 H2 H3 H4 H5).
Defined.

Example insert_parent_then_query :
  value_of (migrations.QueryOrphanedChildren
              (state_of (db_Exec (sql.INSERT_INTO_ISSUES "bd-abc123" "Parent" "open")
                           fixtures.with_orphans))) = Ok [].
Proof. vm_compute; reflexivity. Qed.

(** ** What the detection step logs *)

Section Report.

Lemma orphan_report_all_logs (orphans : list migrations.OrphanInfo) :
  List.filter observe.is_log (spec.orphan_report orphans) = spec.orphan_report orphans.
Proof.
  destruct orphans as [|o orphans]; [reflexivity|].
  unfold spec.orphan_report. generalize (o :: orphans). intros l.
  cbn [List.filter observe.is_log]. f_equal.
  rewrite List.filter_app. cbn [List.filter observe.is_log]. f_equal.
  induction l as [|x l IH]; [reflexivity|]. csimpl. by rewrite IH.
Qed.

Lemma orphan_report_length (orphans : list migrations.OrphanInfo) :
  length (spec.orphan_report orphans) =
    match orphans with [] => 0%nat | _ => (length orphans + 2)%nat end.
Proof.
  destruct orphans as [|o orphans]; [reflexivity|].
  unfold spec.orphan_report. cbn [length].
  rewrite length_app, length_fmap. cbn [length]. lia.
Qed.

Lemma filter_none_bool {A} (f : A → bool) (l : list A) :
  Forall (λ x, f x = false) l → List.filter f l = [].
Proof. induction 1 as [|x l Hx _ IH]; [reflexivity|]. cbn. by rewrite Hx. Qed.

End Report.

(** X8.  On a database whose query is served, the detection step writes no log
    line when the table has no orphan, and otherwise one line per orphan
    row between a heading and a hint, announcing that very number; it
    returns nil either way. *)
Theorem detect_logs_one_line_per_orphan
    (tableExists : string → Mdb (result bool)) (db : sql.DB) (t : list Event) :
  tableExists "issues" db = (Ok true, db, t) →
  Forall (λ e, observe.is_log e = false) t →
  sql.has_issues_table db →
  sql.link db sql.SELECT_ORPHANS = sql.NoFault →
  let d := migrations.DetectOrphanedChildren tableExists db in
  let logs := List.filter observe.is_log (trace_of d) in
  let n := length (filter (spec.orphan (sql.issues db)) (sql.issues db)) in
  value_of d = None
  ∧ (logs = [] ↔ n = 0%nat)
  ∧ (n ≠ 0%nat → length logs = (n + 2)%nat
                 ∧ head logs = Some (EvLog "orphan detection: found %d orphaned child issue(s):"
                                       [ArgInt n])).
Proof.
  intros Hte Hquiet Ht Hl d logs n. subst logs d.
  rewrite DetectOrphanedChildren_cases. cbv zeta. rewrite Hte.
  cbn [value_of state_of trace_of fst snd].
  pose proof (QueryOrphanedChildren_served db Ht Hl) as Hq. rewrite Hq.
  cbn [value_of state_of trace_of fst snd].
  rewrite !List.filter_app, (filter_none_bool _ _ Hquiet), orphan_report_all_logs.
  cbn [List.filter observe.is_log app].
  set (l := spec.of_triple <$> sql.select_orphans (sql.issues db)).
  assert (Hn : length l = n).
  { subst l n. by rewrite select_orphans_perm, length_fmap. }
  split; [reflexivity|]. split.
  - rewrite <- Hn. destruct l; [done|]. split; discriminate.
  - intros Hne. rewrite orphan_report_length, <- Hn. rewrite <- Hn in Hne.
    destruct l; [done|]. split; reflexivity.
Qed.

Lemma detect_logs_one_line_per_orphan_witness :
  migrations.tableExists "issues" fixtures.with_orphans
    = (Ok true, fixtures.with_orphans, [EvQuery (sql.CATALOG_TABLE "issues")])
  ∧ Forall (λ e, observe.is_log e = false) [EvQuery (sql.CATALOG_TABLE "issues")]
  ∧ sql.has_issues_table fixtures.with_orphans
  ∧ sql.link fixtures.with_orphans sql.SELECT_ORPHANS = sql.NoFault
  ∧ value_of (migrations.DetectOrphanedChildren migrations.tableExists
                fixtures.with_orphans) = None.
Proof.
  assert (H1 : migrations.tableExists "issues" fixtures.with_orphans
               = (Ok true, fixtures.with_orphans, [EvQuery (sql.CATALOG_TABLE "issues")]))
    by (vm_compute; reflexivity).
  assert (H2 : Forall (λ e, observe.is_log e = false) [EvQuery (sql.CATALOG_TABLE "issues")])
    by (repeat constructor).
  assert (H3 : sql.has_issues_table fixtures.with_orphans) by (vm_compute; eauto).
  assert (H4 : sql.link fixtures.with_orphans sql.SELECT_ORPHANS = sql.NoFault)
    by reflexivity.
  repeat (split; [assumption|]).
  exact (proj1 (detect_logs_one_line_per_orphan migrations.tableExists
                  fixtures.with_orphans _ H1 H2 H3 H4)).
Defined.

(** ** More on the [sync] run *)

Section SyncMore.

Context {W : Type} `{bd.Env W}.

Lemma syncCmd_Run_trace_nonempty (w : W) :
  bd.store_nil w = false → bd.FindBeadsDir w ≠ "" →
  ∃ rest, trace_of (bd.syncCmd_Run w)
          = bd.EvCommit (spec.commit_msg w) (spec.commit_result w) :: rest.
Proof.
  intros Hn Hd. rewrite (syncCmd_Run_trace w Hn Hd).
  unfold spec.commit_events. cbn [app]. by eexists.
Qed.

Lemma syncCmd_Run_trace_skipped (w : W) :
  bd.store_nil w = true ∨ bd.FindBeadsDir w = "" →
  trace_of (bd.syncCmd_Run w) = [].
Proof.
  unfold bd.syncCmd_Run, bind, gets. destruct (bd.store_nil w); [done|].
  intros [?|Hd]; [done|]. by rewrite Hd.
Qed.

End SyncMore.

(** X9.  A run does nothing at all (no call, no output) exactly when no
    store is open or no metadata directory is found. *)
Theorem sync_noop_iff_no_store_or_no_dir {W : Type} `{!bd.Env W} (w : W) :
  trace_of (bd.syncCmd_Run w) = [] ↔ bd.store_nil w = true ∨ bd.FindBeadsDir w = "".
Proof.
  split; [|apply syncCmd_Run_trace_skipped].
  intros E. destruct (bd.store_nil w) eqn:Hn; [by left|].
  destruct (decide (bd.FindBeadsDir w = "")) as [Hd|Hd]; [by right|].
  destruct (syncCmd_Run_trace_nonempty w Hn Hd) as [rest Hr]. congruence.
Qed.

(** X10.  A push is attempted only in a run that got past both early returns and
    whose remote check answered "yes" without error. *)
Theorem push_only_after_positive_remote_check {W : Type} `{!bd.Env W}
    (w : W) (perr : option error) :
  bd.EvPush perr ∈ trace_of (bd.syncCmd_Run w) →
  bd.store_nil w = false
  ∧ bd.FindBeadsDir w ≠ ""
  ∧ spec.remote_result w = (true, None)
  ∧ perr = spec.push_result w.
Proof.
  intros Hin. destruct (bd.store_nil w) eqn:Hn.
  { rewrite syncCmd_Run_trace_skipped in Hin by (by left). by apply elem_of_nil in Hin. }
  destruct (decide (bd.FindBeadsDir w = "")) as [Hd|Hd].
  { rewrite syncCmd_Run_trace_skipped in Hin by (by right). by apply elem_of_nil in Hin. }
  split; [done|]. split; [done|].
  rewrite (syncCmd_Run_trace w Hn Hd), !elem_of_app in Hin.
  destruct Hin as [Hin|[Hin|Hin]].
  - pose proof (commit_events_no_push (spec.commit_msg w) (spec.commit_result w)) as Hf.
    rewrite Forall_forall in Hf. by specialize (Hf _ Hin).
  - destruct (spec.native w); [by apply elem_of_nil in Hin|].
    pose proof (export_events_no_push (spec.jsonl_path w) (spec.export_result w)) as Hf.
    rewrite Forall_forall in Hf. by specialize (Hf _ Hin).
  - unfold spec.push_events in Hin.
    destruct (spec.remote_result w) as [[|] [e|]]; cbn in Hin;
      rewrite ?elem_of_cons, ?elem_of_nil in Hin;
      try (destruct Hin as [?|?]; done).
    destruct Hin as [?|[[= ->]|[?|[]]]]; try done.
    destruct (spec.push_result w); done.
Qed.

Lemma push_only_after_positive_remote_check_witness :
  bd.EvPush None ∈ trace_of (bd.syncCmd_Run fixtures.native_with_remote)
  ∧ bd.store_nil fixtures.native_with_remote = false
  ∧ bd.FindBeadsDir fixtures.native_with_remote ≠ ""
  ∧ spec.remote_result fixtures.native_with_remote = (true, None)
  ∧ None = spec.push_result fixtures.native_with_remote.
Proof.
  assert (H : bd.EvPush None ∈ trace_of (bd.syncCmd_Run fixtures.native_with_remote))
    by (vm_compute; do 2 right; left).
  split; [exact H|].
  exact (push_only_after_positive_remote_check fixtures.native_with_remote None H).
Defined.

(** X11.  When the remote check answers "yes" without error the run ends with
    the push and one line about it: a warning carrying the error when the
    push failed, the message "Pushed to Dolt git remote" when it went
    through.  A failed push is not retried. *)
Theorem push_outcome_is_last_line {W : Type} `{!bd.Env W} (w : W) :
  bd.store_nil w = false →
  bd.FindBeadsDir w ≠ "" →
  spec.remote_result w = (true, None) →
  ∃ before,
    trace_of (bd.syncCmd_Run w) =
      before
      ++ [bd.EvHasRemote "origin" true None;
          bd.EvPush (spec.push_result w);
          match spec.push_result w with
          | Some e => bd.EvStderr "Warning: Dolt push failed: %v\n" [ArgErr e]
          | None => bd.EvStderr "Pushed to Dolt git remote\n" []
          end]
    ∧ Forall (λ x, spec.is_push x = false) before.
Proof.
  intros Hn Hd Hr. eexists. rewrite (syncCmd_Run_trace w Hn Hd), Hr, app_assoc.
  split; [reflexivity|]. apply Forall_app. split; [apply commit_events_no_push|].
  destruct (spec.native w); [constructor|apply export_events_no_push].
Qed.

Lemma push_outcome_is_last_line_witness :
  bd.store_nil observe.push_fails = false
  ∧ bd.FindBeadsDir observe.push_fails ≠ ""
  ∧ spec.remote_result observe.push_fails = (true, None)
  ∧ ∃ before,
      trace_of (bd.syncCmd_Run observe.push_fails) =
        before
        ++ [bd.EvHasRemote "origin" true None;
            bd.EvPush (spec.push_result observe.push_fails);
            match spec.push_result observe.push_fails with
            | Some e => bd.EvStderr "Warning: Dolt push failed: %v\n" [ArgErr e]
            | None => bd.EvStderr "Pushed to Dolt git remote\n" []
            end]
      ∧ Forall (λ x, spec.is_push x = false) before.
Proof.
  assert (H1 : bd.store_nil observe.push_fails = false) by reflexivity.
  assert (H2 : bd.FindBeadsDir observe.push_fails ≠ "") by discriminate.
  assert (H3 : spec.remote_result observe.push_fails = (true, None)) by reflexivity.
  repeat (split; [assumption|]).
  exact (push_outcome_is_last_line observe.push_fails H1 H2 H3).
Defined.

Example sync_scenario_push_fails :
  trace_of (bd.syncCmd_Run observe.push_fails) =
    [bd.EvCommit "bd sync (auto-commit) by alice" None;
     bd.EvHasRemote "origin" true None;
     bd.EvPush (Some (errorString "remote rejected"));
     bd.EvStderr "Warning: Dolt push failed: %v\n" [ArgErr (errorString "remote rejected")]].
Proof. vm_compute; reflexivity. Qed.

(** X12.  A run that reaches the commit step writes nothing to standard error
    exactly when the commit returned nil or "nothing to commit", the export
    (if there was one) returned nil, and no push was attempted; it never
    writes more than three lines. *)
Theorem sync_silent_iff_nothing_to_report {W : Type} `{!bd.Env W} (w : W) :
  bd.store_nil w = false →
  bd.FindBeadsDir w ≠ "" →
  let lines := List.filter spec.is_stderr (trace_of (bd.syncCmd_Run w)) in
  (lines = [] ↔
     (spec.commit_result w = None
      ∨ ∃ e, spec.commit_result w = Some e ∧ bd.isDoltNothingToCommit e = true)
     ∧ (spec.native w = true ∨ spec.export_result w = None)
     ∧ spec.remote_result w ≠ (true, None))
  ∧ (length lines ≤ 3)%nat.
Proof.
  intros Hn Hd lines. subst lines. rewrite (syncCmd_Run_trace w Hn Hd).
  unfold spec.commit_events, spec.export_events, spec.push_events.
  destruct (spec.commit_result w) as [e|];
    [destruct (bd.isDoltNothingToCommit e) eqn:Eb|];
    destruct (spec.native w), (spec.export_result w) as [e1|],
      (spec.remote_result w) as [[|] [e2|]], (spec.push_result w) as [e3|];
    cbn; (split; [|lia]); split.
  all: try (intros E; discriminate E).
  all: try (intros _; split; [first [by left|right; by exists e]|];
            split; [first [by left|by right]|discriminate]).
  all: intros (HA & HB & HC); try reflexivity; exfalso.
  all: try (by destruct HC).
  all: try (destruct HB as [HB|HB]; discriminate HB).
  all: destruct HA as [HA|(e' & HA & HA')]; [discriminate HA|congruence].
Qed.

Lemma sync_silent_iff_nothing_to_report_witness :
  bd.store_nil fixtures.mirror_no_remote = false
  ∧ bd.FindBeadsDir fixtures.mirror_no_remote ≠ ""
  ∧ List.filter spec.is_stderr (trace_of (bd.syncCmd_Run fixtures.mirror_no_remote)) = [].
Proof.
  assert (H1 : bd.store_nil fixtures.mirror_no_remote = false) by reflexivity.
  assert (H2 : bd.FindBeadsDir fixtures.mirror_no_remote ≠ "") by discriminate.
  split; [exact H1|]. split; [exact H2|].
  apply (proj1 (sync_silent_iff_nothing_to_report fixtures.mirror_no_remote H1 H2)).
  split; [|split].
  - right. exists (errorString "nothing to commit"). split; reflexivity.
  - by right.
  - discriminate.
Defined.

(** X13.  The calls of a run that reaches the commit step, in order: one commit,
    in a non-native mode one export, one remote check, and after a positive
    check one push; no operation is called twice. *)
Theorem sync_calls_once_in_order {W : Type} `{!bd.Env W} (w : W) :
  bd.store_nil w = false →
  bd.FindBeadsDir w ≠ "" →
  List.filter observe.is_call (trace_of (bd.syncCmd_Run w)) =
    [bd.EvCommit (spec.commit_msg w) (spec.commit_result w)]
    ++ (if spec.native w then []
        else [bd.EvExport (spec.jsonl_path w) (spec.export_result w)])
    ++ [bd.EvHasRemote "origin" (spec.remote_result w).1 (spec.remote_result w).2]
    ++ (if bool_decide (spec.remote_result w = (true, None))
        then [bd.EvPush (spec.push_result w)] else []).
Proof.
  intros Hn Hd. rewrite (syncCmd_Run_trace w Hn Hd).
  unfold spec.commit_events, spec.export_events, spec.push_events.
  destruct (spec.commit_result w) as [e|];
    [destruct (bd.isDoltNothingToCommit e)|];
    destruct (spec.native w), (spec.export_result w) as [e1|],
      (spec.remote_result w) as [[|] [e2|]], (spec.push_result w) as [e3|];
    reflexivity.
Qed.

Lemma sync_calls_once_in_order_witness :
  bd.store_nil fixtures.export_fails = false
  ∧ bd.FindBeadsDir fixtures.export_fails ≠ ""
  ∧ List.filter observe.is_call (trace_of (bd.syncCmd_Run fixtures.export_fails)) =
      [bd.EvCommit "bd sync (auto-commit) by alice" None;
       bd.EvExport ".beads/issues.jsonl" (Some (errorString "permission denied"));
       bd.EvHasRemote "origin" true None;
       bd.EvPush None].
Proof.
  assert (H1 : bd.store_nil fixtures.export_fails = false) by reflexivity.
  assert (H2 : bd.FindBeadsDir fixtures.export_fails ≠ "") by discriminate.
  split; [exact H1|]. split; [exact H2|].
  exact (sync_calls_once_in_order fixtures.export_fails H1 H2).
Defined.

(** Without CGO both copies of [sqliteConnString] ignore their arguments:
    they agree on every path and flag. *)
Lemma sqliteConnString_nocgo (path path' : string) (readOnly readOnly' : bool) :
  doctor.sqliteConnString path readOnly = doctor_fix.sqliteConnString path' readOnly'.
Proof. reflexivity. Qed.

(** ** The scan loop and the order of rows *)

Lemma rows_Scan3_Ok (r : sql.RawRow) (p : string * string * string) :
  rows_Scan3 r = Ok p → r = sql.to_raw p.
Proof.
  destruct p as [[a b] c]. unfold rows_Scan3. intros Er.
  repeat (match type of Er with
          | match ?x with _ => _ end = _ => destruct x; try discriminate Er
          end).
  by injection Er as -> -> ->.
Qed.

(** X14.  The scan loop is all or nothing: it succeeds only on rows of three
    non-NULL values, then appending one [OrphanInfo] per row in the order
    delivered; the first row that cannot be scanned ends it with that row's
    scan error wrapped as "failed to scan orphan row" (the rows before it
    all scanned, the rows after it are not looked at), and what was read
    before that row is not returned. *)
Theorem scan_orphans_all_or_nothing
    (rs : list sql.RawRow) (acc : list migrations.OrphanInfo) :
  match migrations.scan_orphans rs acc with
  | Ok l => ∃ triples, rs = sql.to_raw <$> triples ∧ l = acc ++ (spec.of_triple <$> triples)
  | Err err =>
      ∃ good r rest cause,
        rs = (sql.to_raw <$> good) ++ r :: rest
        ∧ rows_Scan3 r = Err cause
        ∧ err = wrapError "failed to scan orphan row" cause
  end.
Proof.
  revert acc. induction rs as [|r rs IH]; intros acc; cbn [migrations.scan_orphans].
  - exists []. by rewrite app_nil_r.
  - destruct (rows_Scan3 r) as [[[a b] c]|cause] eqn:Er.
    + apply rows_Scan3_Ok in Er as ->.
      specialize (IH (acc ++ [migrations.mkOrphanInfo a b c])).
      destruct (migrations.scan_orphans rs _) as [l|err].
      * destruct IH as (triples & -> & ->). exists ((a, b, c) :: triples).
        split; [reflexivity|by rewrite <- app_assoc].
      * destruct IH as (good & r' & rest & cause & -> & Hs & ->).
        exists ((a, b, c) :: good), r', rest, cause. done.
    + exists [], r, rs, cause. done.
Qed.

(** Of two rows that cannot be scanned, the first one decides the error. *)
Example scan_orphans_reports_first_bad_row :
  migrations.scan_orphans
    [[Some "bd-a.1"; Some "t"; Some "open"]; [Some "bd-b.1"; None; Some "open"];
     [Some "bd-c.1"; Some "t"]] [] =
    Err (wrapError "failed to scan orphan row"
           (errorString "sql: Scan error: converting NULL to string is unsupported")).
Proof. reflexivity. Qed.

Example scan_orphans_stops_at_null :
  migrations.scan_orphans
    [[Some "bd-a.1"; Some "t"; Some "open"]; [Some "bd-b.1"; None; Some "open"]] [] =
    Err (wrapError "failed to scan orphan row"
           (errorString "sql: Scan error: converting NULL to string is unsupported")).
Proof. reflexivity. Qed.

Section RowOrder.

Lemma orphan_perm (issues1 issues2 : list sql.IssueRow) (r : sql.IssueRow) :
  issues1 ≡ₚ issues2 → spec.orphan issues1 r ↔ spec.orphan issues2 r.
Proof.
  intros Hp. unfold spec.orphan.
  split; intros (p & Hp' & Hn); exists p; (split; [done|]);
    intros Hin; apply Hn; [by rewrite Hp|by rewrite <- Hp].
Qed.

End RowOrder.

(** X15.  The answer does not depend on the order in which the table holds its
    rows: two tables with the same rows (IDs unique) give the same list. *)
Theorem query_independent_of_row_order (db1 db2 : sql.DB) :
  sql.has_issues_table db1 → sql.has_issues_table db2 →
  sql.link db1 sql.SELECT_ORPHANS = sql.NoFault →
  sql.link db2 sql.SELECT_ORPHANS = sql.NoFault →
  sql.issues db1 ≡ₚ sql.issues db2 →
  NoDup (sql.ids db1) →
  value_of (migrations.QueryOrphanedChildren db1)
    = value_of (migrations.QueryOrphanedChildren db2).
Proof.
  intros Ht1 Ht2 Hl1 Hl2 Hperm Hkey.
  rewrite (QueryOrphanedChildren_served db1 Ht1 Hl1).
  rewrite (QueryOrphanedChildren_served db2 Ht2 Hl2).
  cbn [value_of fst]. f_equal. symmetry.
  apply sorted_orphans_determined; [exact Hkey| |apply select_orphans_sorted].
  rewrite select_orphans_perm.
  rewrite (list_filter_iff _ (spec.orphan (sql.issues db1)))
    by (intros r; symmetry; by apply orphan_perm).
  apply fmap_Permutation, filter_Permutation. by symmetry.
Qed.

Lemma query_independent_of_row_order_witness :
  sql.has_issues_table fixtures.with_orphans
  ∧ sql.has_issues_table observe.with_orphans_reordered
  ∧ sql.issues fixtures.with_orphans ≡ₚ sql.issues observe.with_orphans_reordered
  ∧ NoDup (sql.ids fixtures.with_orphans)
  ∧ value_of (migrations.QueryOrphanedChildren fixtures.with_orphans)
      = value_of (migrations.QueryOrphanedChildren observe.with_orphans_reordered).
Proof.
  assert (H1 : sql.has_issues_table fixtures.with_orphans) by (vm_compute; eauto).
  assert (H2 : sql.has_issues_table observe.with_orphans_reordered)
    by (vm_compute; eauto).
  assert (H3 : sql.issues fixtures.with_orphans
               ≡ₚ sql.issues observe.with_orphans_reordered).
  { vm_compute. apply Permutation_cons_append. }
  assert (H4 : NoDup (sql.ids fixtures.with_orphans)) by compute_done.
  repeat (split; [assumption|]).
  exact (query_independent_of_row_order fixtures.with_orphans
           observe.with_orphans_reordered H1 H2 eq_refl eq_refl H3 H4).
Defined.

(** ** The schema probes fail fast *)

Section Probes.

(** A probe whose query is refused, or whose cursor breaks off, answers
    with the wrapped error, never with [true] or [false]. *)
Lemma tableExists_propagates (db : sql.DB) (name : string) (e : error) :
  sql.link db (sql.CATALOG_TABLE name) = sql.QueryFault e
  ∨ (∃ n, sql.link db (sql.CATALOG_TABLE name) = sql.IterFault n e) →
  migrations.tableExists name db =
    (Err (wrapError "failed to check table existence" e), db,
     [EvQuery (sql.CATALOG_TABLE name)]).
Proof.
  unfold migrations.tableExists, bind, db_Query.
  intros [->|[n ->]]; cbn [sql.run_query]; [reflexivity|].
  by destruct (sql.catalog db !! name).
Qed.

Lemma columnExists_propagates (db : sql.DB) (table column : string) (e : error) :
  sql.link db (sql.CATALOG_COLUMN table column) = sql.QueryFault e
  ∨ (∃ n, sql.link db (sql.CATALOG_COLUMN table column) = sql.IterFault n e) →
  migrations.columnExists table column db =
    (Err (wrapError "failed to check column existence" e), db,
     [EvQuery (sql.CATALOG_COLUMN table column)]).
Proof.
  unfold migrations.columnExists, bind, db_Query.
  intros [->|[n ->]]; cbn [sql.run_query]; [reflexivity|].
  destruct (sql.catalog db !! table) as [t|]; [|reflexivity].
  by destruct (bool_decide (column ∈ sql.columns t)).
Qed.

(** So a migration whose probe fails aborts before any DDL. *)
Lemma MigrateWispTypeColumn_aborts_on_failed_probe (db : sql.DB) (e : error) :
  sql.link db (sql.CATALOG_COLUMN "issues" "wisp_type") = sql.QueryFault e
  ∨ (∃ n, sql.link db (sql.CATALOG_COLUMN "issues" "wisp_type") = sql.IterFault n e) →
  migrations.MigrateWispTypeColumn db =
    (Some (wrapError "failed to check wisp_type column"
             (wrapError "failed to check column existence" e)), db,
     [EvQuery (sql.CATALOG_COLUMN "issues" "wisp_type")]).
Proof.
  intros Hl. unfold migrations.MigrateWispTypeColumn, bind.
  by rewrite (columnExists_propagates db _ _ e Hl).
Qed.

End Probes.
